(** * ModuleUser and the CallSwitch component of vialer-js

    A shallow embedding of [src/js/bg/modules/user.js] (the session methods
    [login], [logout], [_platformData], [_initialState], [toString] and the
    [bg:user:update-token] handler) and of the call-switch component's
    methods [activateOrDeleteCall], [callIcon], [classes] and
    [newCallAllowed].  The application object [app] that the session methods
    act upon is modelled as a record that is threaded through a small
    state-and-exception monad; every method call on [app] is also appended
    to a history, so that statements about "which update was issued with
    which options" can be read off directly.  Not embedded: the
    [bg:user:unlock] handler, which hands [state.user.username] (possibly
    [null]) to a function that is not in the source, and [callTitle], which
    reads a translation table that is not in the source. *)

From Stdlib Require Import ZArith Lia Bool Ascii String List.
From stdpp Require Import base option list strings gmap.

Set Warnings "-register-all".
Local Open Scope string_scope.
Local Open Scope list_scope.
Local Open Scope Z_scope.

(** ** JavaScript values held in the state tree *)

(** The partial states handed to [setState] are object literals whose leaves
    are strings, numbers, booleans and [null]; objects keep their keys in
    insertion order. *)
Inductive json : Type :=
| JUndefined
| JNull
| JBool (b : bool)
| JNum (n : Z)
| JStr (s : string)
| JObj (fields : list (string * json)).

(** [if (v)] *)
Definition truthy (v : json) : bool :=
  match v with
  | JUndefined | JNull => false
  | JBool b => b
  | JNum n => negb (Z.eqb n 0)
  | JStr s => negb (String.eqb s "")
  | JObj _ => true
  end.

Definition fields_of (v : json) : list (string * json) :=
  match v with JObj fs => fs | _ => [] end.

Fixpoint assoc (k : string) (fs : list (string * json)) : option json :=
  match fs with
  | [] => None
  | (k', v) :: rest => if String.eqb k' k then Some v else assoc k rest
  end.

(** [v[k]] where [v] is neither [undefined] nor [null]: a missing property
    reads as [undefined]. *)
Definition get_prop (v : json) (k : string) : json :=
  default JUndefined (assoc k (fields_of v)).

(** Total reading of a dotted path, used to state post-conditions. *)
Fixpoint lookup_path (p : list string) (v : json) : json :=
  match p with
  | [] => v
  | k :: rest => lookup_path rest (get_prop v k)
  end.

(** Replace the value under [k], or add the key at the end. *)
Fixpoint upsert (k : string) (f : json -> json) (fs : list (string * json))
  : list (string * json) :=
  match fs with
  | [] => [(k, f JUndefined)]
  | (k', v) :: rest =>
      if String.eqb k' k then (k', f v) :: rest else (k', v) :: upsert k f rest
  end.

(** Modelled from the spec: the merge performed by [app.setState] is not in
    the source.  Section 4.2: "deep-merges [partial] into the current tree";
    an object is merged key by key, anything else overwrites. *)
Fixpoint merge (old new : json) {struct new} : json :=
  match new with
  | JObj nf =>
      JObj ((fix go (nf : list (string * json)) (acc : list (string * json)) :=
               match nf with
               | [] => acc
               | (k, v) :: rest => go rest (upsert k (fun o => merge o v) acc)
               end) nf (fields_of old))
  | _ => new
  end.

Fixpoint merge_fields (nf acc : list (string * json)) : list (string * json) :=
  match nf with
  | [] => acc
  | (k, v) :: rest => merge_fields rest (upsert k (fun o => merge o v) acc)
  end.

(** What a partial state says about a path: [None] when the path is not
    mentioned, [Some v] when the merge leaves [v] (merged into what was
    there) at that path. *)
Fixpoint mentions (p : list string) (new : json) : option json :=
  match p with
  | [] => Some new
  | k :: rest =>
      match new with
      | JObj nf =>
          match assoc k nf with
          | Some v => mentions rest v
          | None => None
          end
      | _ => Some JUndefined
      end
  end.

Definition merge_opt (old : json) (new : option json) : json :=
  match new with
  | Some n => merge old n
  | None => old
  end.

(** Every key occurs once in each object of the literal. *)
Fixpoint unique_keys (v : json) : bool :=
  match v with
  | JObj fs =>
      (fix go (fs : list (string * json)) : bool :=
         match fs with
         | [] => true
         | (k, x) :: rest =>
             match assoc k rest with None => true | Some _ => false end
             && unique_keys x && go rest
         end) fs
  | _ => true
  end.

Fixpoint unique_fields (fs : list (string * json)) : bool :=
  match fs with
  | [] => true
  | (k, x) :: rest =>
      match assoc k rest with None => true | Some _ => false end
      && unique_keys x && unique_fields rest
  end.

(** ** JavaScript strings *)

(** [s.includes(sub)] *)
Fixpoint includes (s sub : string) : bool :=
  String.prefix sub s
  || match s with
     | EmptyString => false
     | String _ s' => includes s' sub
     end.

(** [s.substring(start, end)]: both indices are clamped to [0, s.length]
    and swapped when [start > end]. *)
Definition substring (s : string) (start end_ : Z) : string :=
  let len := Z.of_nat (String.length s) in
  let a := Z.max 0 (Z.min start len) in
  let b := Z.max 0 (Z.min end_ len) in
  let lo := Z.min a b in
  let hi := Z.max a b in
  String.substring (Z.to_nat lo) (Z.to_nat (hi - lo)) s.

(** The character class [\d]. *)
Definition is_digit (c : ascii) : bool :=
  (48 <=? Z.of_N (N_of_ascii c)) && (Z.of_N (N_of_ascii c) <=? 57).

(** The character class [[\d.]] whose complement the login code deletes. *)
Definition digit_or_dot (c : ascii) : bool := is_digit c || Ascii.eqb c ".".

Fixpoint string_filter (keep : ascii -> bool) (s : string) : string :=
  match s with
  | EmptyString => EmptyString
  | String c s' =>
      if keep c then String c (string_filter keep s') else string_filter keep s'
  end.

(** [s.replace(/[^\d.]/g, '')] *)
Definition replace_non_numeric (s : string) : string := string_filter digit_or_dot s.

(** [l.join(sep)] *)
Fixpoint join (sep : string) (l : list string) : string :=
  match l with
  | [] => ""
  | [x] => x
  | x :: rest => x +:+ sep +:+ join sep rest
  end.

(** [array.includes(x)] on an array of strings. *)
Definition array_includes (l : list string) (x : string) : bool :=
  existsb (String.eqb x) l.

(** ** The application object *)

(** The second argument of [setState]; an absent key is [None]. *)
Record options : Type := { encrypt : option bool; persist : option bool }.

Definition no_options : options := {| encrypt := None; persist := None |}.

(** The arguments of a call [this.app.$t(template, params)].  Translation is
    outside the module, so the text is kept as the call that produces it. *)
Record text : Type := { template : string; params : list (string * string) }.

Definition t_ (template : string) (params : list (string * string)) : text :=
  {| template := template; params := params |}.

(** The payload of [fg:notify]; [message] is [None] when the JavaScript
    variable is still [undefined]. *)
Record notification : Type :=
  { icon : string; message : option text; timeout : option Z; type : string }.

(** How a flush to durable storage was written. *)
Inductive flush_mode : Type := Plain | Cipher (key : string).

(** The method calls a session operation makes on [this.app], in order. *)
Inductive call : Type :=
| Call_logger_info (msg : string)
| Call_api_setupClient (credentials : option (string * string))
| Call_api_client_get (url : string)
| Call_setState (partial : json) (opts : options)
| Call_emit (event : string) (payload : notification)
| Call_unlockVault (username password : string)
| Call_loadIdentity (username password : string)
| Call_calls_disconnect (reconnect : bool)
| Call_initServices.

Record App : Type := mkApp
  { state : json;                     (* this.app.state *)
    encrypted : bool;                 (* this.app.store.get('state.encrypted') *)
    salt : option string;             (* the persisted salt *)
    canary : option string;           (* the key the stored canary opens with *)
    vault_key : option string;        (* the key held in memory *)
    credentials : option (string * string);  (* basic auth of the API client *)
    durable : list (flush_mode * json);      (* flushes, newest first *)
    window_failMessage : option string;      (* window.failMessage *)
    history : list call }.

Inductive exn : Type :=
| TypeError
| LockError_InvalidPassword
| LockError_NoVaultConfigured
| StateError_VaultLocked
| IdentityError.

Inductive outcome (A : Type) : Type :=
| Returned (a : A)
| Thrown (e : exn).
Arguments Returned {A} a.
Arguments Thrown {A} e.

(** A computation on the application: it returns or throws, and leaves the
    application in a new state either way. *)
Definition M (A : Type) : Type := App -> outcome A * App.

#[global] Instance M_ret : MRet M := fun A a w => (Returned a, w).
#[global] Instance M_bind : MBind M := fun A B k c w =>
  match c w with
  | (Returned a, w') => k a w'
  | (Thrown e, w') => (Thrown e, w')
  end.

Definition throw {A} (e : exn) : M A := fun w => (Thrown e, w).

(** Reading and updating the application. *)
Definition gets {A} (f : App -> A) : M A := fun w => (Returned (f w), w).
Definition modify (f : App -> App) : M unit := fun w => (Returned tt, f w).

Definition with_state (s : json) (w : App) : App :=
  mkApp s (encrypted w) (salt w) (canary w) (vault_key w) (credentials w)
        (durable w) (window_failMessage w) (history w).
Definition with_salt (s : option string) (w : App) : App :=
  mkApp (state w) (encrypted w) s (canary w) (vault_key w) (credentials w)
        (durable w) (window_failMessage w) (history w).
Definition with_vault_key (k : option string) (w : App) : App :=
  mkApp (state w) (encrypted w) (salt w) (canary w) k (credentials w)
        (durable w) (window_failMessage w) (history w).
Definition with_credentials (c : option (string * string)) (w : App) : App :=
  mkApp (state w) (encrypted w) (salt w) (canary w) (vault_key w) c
        (durable w) (window_failMessage w) (history w).
Definition with_durable (d : list (flush_mode * json)) (w : App) : App :=
  mkApp (state w) (encrypted w) (salt w) (canary w) (vault_key w) (credentials w)
        d (window_failMessage w) (history w).
Definition with_window_failMessage (m : option string) (w : App) : App :=
  mkApp (state w) (encrypted w) (salt w) (canary w) (vault_key w) (credentials w)
        (durable w) m (history w).
Definition with_history (h : list call) (w : App) : App :=
  mkApp (state w) (encrypted w) (salt w) (canary w) (vault_key w) (credentials w)
        (durable w) (window_failMessage w) h.

(** Every call on the application is appended to its history. *)
Definition record (c : call) : M unit :=
  modify (fun w => with_history (history w ++ [c]) w).

(** [undefined] and [null] have no properties. *)
Definition nullish (v : json) : bool :=
  match v with
  | JUndefined | JNull => true
  | _ => false
  end.

(** [v.k]: reading a property of [undefined] or [null] throws. *)
Definition member (v : json) (k : string) : M json :=
  if nullish v then throw TypeError else mret (get_prop v k).

Fixpoint read_path (v : json) (p : list string) : M json :=
  match p with
  | [] => mret v
  | k :: rest => x ← member v k; read_path x rest
  end.

(** [this.app.state.a.b...] *)
Definition read_state (p : list string) : M json :=
  tree ← gets state; read_path tree p.

(** [this.app.store.get('state.encrypted')] *)
Definition store_get_encrypted : M bool := gets encrypted.

(** [window.failMessage = s] *)
Definition set_window_failMessage (s : string) : M unit :=
  modify (with_window_failMessage (Some s)).

(** Collaborators whose only modelled effect is that they were called. *)
Definition logger_info (msg : string) : M unit := record (Call_logger_info msg).
Definition emit (event : string) (payload : notification) : M unit :=
  record (Call_emit event payload).
Definition calls_disconnect (reconnect : bool) : M unit :=
  record (Call_calls_disconnect reconnect).
Definition __initServices : M unit := record Call_initServices.

(** Modelled from the spec: [app.api.setupClient] is not in the source.
    Section 6: "basic-auth credentials settable via
    [setupClient(username?, password?)] (no-arg form clears credentials)". *)
Definition api_setupClient (c : option (string * string)) : M unit :=
  record (Call_api_setupClient c);;
  modify (with_credentials c).

(** A write of [tree] to durable storage. *)
Definition flush (mode : flush_mode) (tree : json) : M unit :=
  modify (fun w => with_durable ((mode, tree) :: durable w) w).

(** Modelled from the spec: [app.setState] is not in the source.  Section 4.2:
    it deep-merges [partial] into the current tree; [options.persist] controls
    whether the merged tree is flushed to durable storage; [options.encrypt]
    overrides whether the flush uses the vault cipher and, when omitted, the
    vault's own [encrypted] flag decides; a ciphered flush uses the key held in
    memory, and asking for one while no key is available is the error
    [StateError.VaultLocked]. *)
Definition setState (partial : json) (opts : options) : M unit :=
  record (Call_setState partial opts);;
  tree ← gets state;
  let merged := merge tree partial in
  if default false (persist opts) then
    vault_encrypted ← gets encrypted;
    if default vault_encrypted (encrypt opts) then
      key ← gets vault_key;
      match key with
      | Some k => modify (with_state merged);; flush (Cipher k) merged
      | None => throw StateError_VaultLocked
      end
    else modify (with_state merged);; flush Plain merged
  else modify (with_state merged).

(** The profile request's answer, section 3: [{status, data: {token | error |
    first_name | preposition | last_name | client | id}}]. *)
Record ErrorBody : Type := { error_message : string }.

Record Profile : Type :=
  { error : option ErrorBody;
    first_name : string;
    preposition : string;
    last_name : string;
    client : option string;
    id : Z;
    token : string }.

Record Response : Type := { status : Z; data : Profile }.

(** [ModuleUser._initialState] *)
Definition _initialState : json :=
  JObj [("authenticated", JBool false);
        ("developer", JBool false);
        ("password", JStr "");
        ("platform", JObj [("tokens", JObj [("portal", JNull); ("sip", JNull)])]);
        ("username", JNull)].

(** [!user.client]: [undefined], [null] and the empty string are falsy. *)
Definition falsy_client (c : option string) : bool :=
  match c with
  | None => true
  | Some s => String.eqb s ""
  end.

Section ModuleUser.

(** [app.api.NOTOK_STATUS], a constant of the API client. *)
Variable NOTOK_STATUS : list Z.
(** The password-based key derivation: salt, username, password. *)
Variable derive_key : string -> string -> string -> string.
(** The salt the random source yields on first use, if it yields one. *)
Variable fresh_salt : option string.
(** [`${this.app}`], the application's name in log lines. *)
Variable app_name : string.

(** [NOTOK_STATUS.includes(status)] *)
Definition notok (s : Z) : bool := existsb (Z.eqb s) NOTOK_STATUS.

(** [await this.app.api.client.get(url)]; [res] is what the request
    resolves to. *)
Definition api_client_get (url : string) (res : Response) : M Response :=
  record (Call_api_client_get url);; mret res.

(** Modelled from the spec: [app.crypto.loadIdentity] is not in the source.
    Section 4.1: it derives the key from the credentials and the persisted
    salt, creating the salt on first use; a failed salt creation is
    [IdentityError] and leaves nothing half-initialised.  No other side
    effect; the key is held in memory only. *)
Definition loadIdentity (username password : string) : M unit :=
  record (Call_loadIdentity username password);;
  persisted ← gets salt;
  match persisted with
  | Some s => modify (with_vault_key (Some (derive_key s username password)))
  | None =>
      match fresh_salt with
      | Some s =>
          modify (with_salt (Some s));;
          modify (with_vault_key (Some (derive_key s username password)))
      | None => throw IdentityError
      end
  end.

(** Modelled from the spec: [app.__unlockVault] is not in the source.
    Section 4.1: it re-derives the key for the existing salt and verifies
    that it opens the canary; a mismatch is [LockError.InvalidPassword], a
    missing vault [LockError.NoVaultConfigured].  No side effect besides
    holding the key in memory. *)
Definition __unlockVault (username password : string) : M unit :=
  record (Call_unlockVault username password);;
  persisted ← gets salt;
  good ← gets canary;
  match persisted, good with
  | Some s, Some good =>
      let k := derive_key s username password in
      if String.eqb k good then modify (with_vault_key (Some k))
      else throw LockError_InvalidPassword
  | _, _ => throw LockError_NoVaultConfigured
  end.

(** [ModuleUser.toString] *)
Definition toString : string := app_name +:+ "[user] ".

(** [ModuleUser.logout] *)
Definition logout : M unit :=
  logger_info (toString +:+ "logging out and cleaning up state");;
  authenticated ← read_state ["user"; "authenticated"];
  setState (JObj [("user", JObj [("password", JStr "")])])
           (if truthy authenticated
            then {| encrypt := None; persist := Some true |}
            else no_options);;
  setState (JObj [("settings", JObj [("vault", JObj [("active", JBool false);
                                                     ("unlocked", JBool false)])]);
                  ("ui", JObj [("layer", JStr "login")]);
                  ("user", JObj [("authenticated", JBool false)])])
           {| encrypt := Some false; persist := Some true |};;
  api_setupClient None;;
  calls_disconnect false;;
  emit "fg:notify"
       {| icon := "user"; message := Some (t_ "Goodbye!" []);
          timeout := None; type := "success" |};;
  setState (JObj [("ui", JObj [("menubar", JObj [("default", JStr "inactive")])])])
           no_options.

(** The [message] a failed login puts in its notification. *)
Definition login_failure_message (res : Response) : M (option text) :=
  match error (data res) with
  | Some err =>
      let failMessage := error_message err in
      if includes failMessage "Too many failed login attempts" then
        let len := Z.of_nat (String.length failMessage) in
        let date := substring failMessage (len - 9) (len - 1) in
        set_window_failMessage failMessage;;
        mret (Some (t_ "Too many failed login attempts; try again at {date}"
                       [("date", date)]))
      else mret None
  | None => mret (Some (t_ "Failed to login. Please check your credentials." []))
  end.

(** [user.realName] *)
Definition realName (user : Profile) : string :=
  join " " (filter (fun i => negb (String.eqb i ""))
                   [first_name user; preposition user; last_name user]).

(** [ModuleUser.login]; [answer] is what the profile request resolves to. *)
Definition login (username password : string) (answer : Response) : M unit :=
  api_setupClient (Some (username, password));;
  res ← api_client_get "api/permission/systemuser/profile/" answer;
  if notok (status res) then
    message ← login_failure_message res;
    emit "fg:notify"
         {| icon := "warning"; message := message; timeout := None;
            type := "warning" |};;
    setState (JObj [("user", JObj [("password", JStr "")])]) no_options
  else
    let user := data res in
    match client user with
    | Some raw_client =>
        if String.eqb raw_client "" then logout
        else
          enc ← store_get_encrypted;
          (if (enc : bool) then __unlockVault username password
           else loadIdentity username password);;
          setState (JObj [("user", JObj [("authenticated", JBool true);
                                         ("username", JStr username)])])
                   {| encrypt := Some false; persist := Some true |};;
          installed ← read_state ["app"; "installed"];
          startLayer ←
            (if truthy installed then
               emit "fg:notify"
                    {| icon := "settings";
                       message := Some (t_ "Review your softphone and audio settings." []);
                       timeout := Some 0; type := "warning" |};;
               mret "settings"
             else
               emit "fg:notify"
                    {| icon := "user";
                       message := Some (t_ "Welcome back, {user}"
                                           [("user", realName user)]);
                       timeout := None; type := "success" |};;
               mret "contacts");
          setState (JObj [("app", JObj [("installed", JBool false);
                                        ("updated", JBool false)]);
                          ("ui", JObj [("layer", JStr startLayer);
                                       ("menubar", JObj [("default", JStr "active")])])])
                   {| encrypt := Some false; persist := Some true |};;
          setState (JObj [("user",
                           JObj [("client_id", JStr (replace_non_numeric raw_client));
                                 ("id", JNum (id user));
                                 ("password", JStr password);
                                 ("platform",
                                  JObj [("tokens", JObj [("sip", JStr (token user))])]);
                                 ("realName", JStr (realName user))])])
                   {| encrypt := None; persist := Some true |};;
          __initServices
    | None => logout
    end.

(** [ModuleUser._platformData]; [answer] is what the token request
    resolves to. *)
Definition _platformData (answer : Response) : M unit :=
  res ← api_client_get "api/autologin/token/" answer;
  setState (JObj [("user",
                   JObj [("platform",
                          JObj [("tokens",
                                 JObj [("portal", JStr (token (data res)))])])])])
           no_options.

(** The handler of [bg:user:update-token]; it returns what it hands to the
    event's [callback]. *)
Definition on_update_token (answer : Response) : M json :=
  _platformData answer;;
  portal ← read_state ["user"; "platform"; "tokens"; "portal"];
  mret (JObj [("token", portal)]).

(** The answer of a failed login that names the rate limit, if it is one. *)
Definition rate_limit_message (answer : Response) : option string :=
  if notok (status answer) then
    match error (data answer) with
    | Some e =>
        if includes (error_message e) "Too many failed login attempts"
        then Some (error_message e) else None
    | None => None
    end
  else None.

End ModuleUser.

(** ** The call switch *)

Module CallSwitch.

(** A call of [this.calls]; only the fields the component's methods read:
    [call.id], [call.active], [call.status], [call.hold.active] and
    [call.transfer.type]. *)
Record Call : Type :=
  { id : string;
    active : bool;
    status : string;
    hold_active : bool;
    transfer_type : string }.

(** [CallSwitch.activateOrDeleteCall]: the event it emits and its payload. *)
Definition activateOrDeleteCall (c : Call) : string * json :=
  if active c && String.eqb (status c) "new" then
    ("bg:calls:call_delete", JObj [("callId", JStr (id c))])
  else
    ("bg:calls:call_activate",
     JObj [("callId", JStr (id c));
           ("holdInactive", JBool false);
           ("unholdActive", JBool false)]).

(** [CallSwitch.callIcon] *)
Definition callIcon (c : Call) : string :=
  if String.eqb (status c) "new" then
    if active c then "close" else "dialpad"
  else if array_includes ["bye"; "rejected_a"; "rejected_b"] (status c) then
    "hang-up"
  else
    if String.eqb (status c) "invite" then "incoming-call"
    else if String.eqb (status c) "create" then "outgoing-call"
    else if hold_active c then "on-hold"
    else "phone".

(** [classes[k] = v] *)
Definition set_class (k : string) (v : json) (classes : list (string * json))
  : list (string * json) :=
  upsert k (fun _ => v) classes.

(** [CallSwitch.classes] *)
Definition classes (c : Call) (block : string) : json :=
  let classes := [] in
  if String.eqb block "call-button" then
    let classes := set_class "active" (JBool (active c)) classes in
    if String.eqb (status c) "new" then
      JObj (set_class "new-call" (JBool true) classes)
    else
      let classes :=
        if array_includes ["bye"; "rejected_a"; "rejected_b"] (status c)
        then set_class "state-hangup" (JBool true) classes
        else set_class "state-active" (JBool true) classes in
      let classes :=
        if String.eqb (transfer_type c) "accept"
        then set_class "hint" (JBool true) classes
        else classes in
      JObj classes
  else JObj classes.

(** [CallSwitch.newCallAllowed]; [calls] is [this.calls], keyed by call id. *)
Definition newCallAllowed (calls : gmap string Call) : bool :=
  map_fold (fun (callId : string) (c : Call) (available : bool) =>
              if array_includes ["new"; "create"; "invite"] (status c)
              then false else available)
           true calls.

End CallSwitch.

(** ** Sample values *)

Definition sample_NOTOK_STATUS : list Z := [400; 401; 403; 404].

Definition sample_derive_key (s username password : string) : string :=
  s +:+ ":" +:+ username +:+ ":" +:+ password.

(** A fresh installation after start-up: the module's initial state, a salt,
    no vault yet. *)
Definition sample_app : App :=
  mkApp (JObj [("user", _initialState);
               ("app", JObj [("installed", JBool true); ("updated", JBool false)])])
        false (Some "c2FsdA") None None None [] None [].

(** The lock screen of an encrypted vault: the key is not in memory and the
    session is not authenticated. *)
Definition locked_app : App :=
  mkApp (JObj [("user", _initialState);
               ("settings",
                JObj [("vault", JObj [("active", JBool true);
                                      ("unlocked", JBool false)])])])
        true (Some "c2FsdA") (Some "c2FsdA:ann@example.org:secret") None None [] None [].

Definition sample_profile (client : option string) : Profile :=
  {| error := None; first_name := "Ann"; preposition := ""; last_name := "Lee";
     client := client; id := 7; token := "sip-token" |}.

Definition sample_ok (client : option string) : Response :=
  {| status := 200; data := sample_profile client |}.

Definition sample_failure (e : option ErrorBody) : Response :=
  {| status := 401;
     data := {| error := e; first_name := ""; preposition := ""; last_name := "";
                client := None; id := 0; token := "" |} |}.

(** ** Vocabulary of the statements *)

(** The session counts as authenticated when [state.user.authenticated] is
    truthy. *)
Definition authenticated (w : App) : bool :=
  truthy (lookup_path ["user"; "authenticated"] (state w)).

(** [wp c Q w]: running [c] from [w] ends, by return or by throw, in an
    outcome and an application that satisfy [Q]. *)
Definition wp {A} (c : M A) (Q : outcome A -> App -> Prop) (w : App) : Prop :=
  Q (c w).1 (c w).2.

(** The updates among a list of calls. *)
Definition setState_calls (h : list call) : list (json * options) :=
  omap (fun c => match c with
                 | Call_setState partial opts => Some (partial, opts)
                 | _ => None
                 end) h.

(** An update that clears the authentication flag and asks to be persisted. *)
Definition persists_flag_clear (c : call) : bool :=
  match c with
  | Call_setState partial opts =>
      match mentions ["user"; "authenticated"] partial with
      | Some (JBool false) => default false (persist opts)
      | _ => false
      end
  | _ => false
  end.

(** A call that derives a vault key. *)
Definition derives_key (c : call) : bool :=
  match c with
  | Call_unlockVault _ _ | Call_loadIdentity _ _ => true
  | _ => false
  end.

(** An update that sets the authentication flag. *)
Definition sets_authenticated (c : call) : bool :=
  match c with
  | Call_setState partial _ =>
      match mentions ["user"; "authenticated"] partial with
      | Some v => truthy v
      | None => false
      end
  | _ => false
  end.

(** A dotted path can be read from [v] without a [TypeError]: no value on
    the way to the last key is [undefined] or [null]. *)
Fixpoint readable (p : list string) (v : json) : bool :=
  match p with
  | [] => true
  | k :: rest => negb (nullish v) && readable rest (get_prop v k)
  end.

(** A partial state spells out a path, key by key. *)
Fixpoint defines (p : list string) (new : json) : bool :=
  match p with
  | [] => true
  | k :: rest =>
      match new with
      | JObj nf =>
          match assoc k nf with
          | Some v => defines rest v
          | None => false
          end
      | _ => false
      end
  end.

(** The statuses that keep a new call from being started, and those of a
    call that has ended. *)
Definition blocking_statuses : list string := ["new"; "create"; "invite"].
Definition ended_statuses : list string := ["bye"; "rejected_a"; "rejected_b"].

(** ** Tactics *)

Ltac head_of t := lazymatch t with ?f _ => head_of f | _ => t end.

Ltac is_constructor_app t := let h := head_of t in is_constructor h.

(** Normal form of an application record after an update. *)
Ltac app_norm :=
  cbn [with_state with_salt with_vault_key with_credentials with_durable
       with_window_failMessage with_history
       state encrypted salt canary vault_key credentials durable
       window_failMessage history].

(** ** Lemmas on the state tree *)

Lemma merge_obj old nf : merge old (JObj nf) = JObj (merge_fields nf (fields_of old)).
Proof.
  reflexivity.
Qed.

Lemma unique_keys_obj fs : unique_keys (JObj fs) = unique_fields fs.
Proof. reflexivity. Qed.

Lemma assoc_upsert_eq k f fs :
  assoc k (upsert k f fs) = Some (f (default JUndefined (assoc k fs))).
Proof.
  induction fs as [|[k' v] rest IH]; simpl.
  - by rewrite String.eqb_refl.
  - destruct (String.eqb k' k) eqn:E; simpl; rewrite E; [done|apply IH].
Qed.

Lemma assoc_upsert_ne k k' f fs :
  k' <> k -> assoc k (upsert k' f fs) = assoc k fs.
Proof.
  intros Hne. induction fs as [|[k'' v] rest IH]; simpl.
  - destruct (String.eqb k' k) eqn:E; [|done].
    apply String.eqb_eq in E. congruence.
  - destruct (String.eqb k'' k') eqn:E; simpl.
    + apply String.eqb_eq in E. subst k''.
      destruct (String.eqb k' k) eqn:E'; [|done].
      apply String.eqb_eq in E'. congruence.
    + by rewrite IH.
Qed.

Lemma assoc_merge_fields k nf acc :
  unique_fields nf = true ->
  default JUndefined (assoc k (merge_fields nf acc)) =
  merge_opt (default JUndefined (assoc k acc)) (assoc k nf).
Proof.
  revert acc. induction nf as [|[k' v] rest IH]; intros acc Hu; simpl; [done|].
  simpl in Hu. apply andb_true_iff in Hu as [Hu Hrest].
  apply andb_true_iff in Hu as [Hk' _].
  rewrite (IH _ Hrest).
  destruct (String.eqb k' k) eqn:E.
  - apply String.eqb_eq in E. subst k'.
    destruct (assoc k rest); [done|]. simpl.
    by rewrite assoc_upsert_eq.
  - rewrite assoc_upsert_ne; [done|].
    intros ->. by rewrite String.eqb_refl in E.
Qed.

Lemma unique_fields_assoc k nf v :
  unique_fields nf = true -> assoc k nf = Some v -> unique_keys v = true.
Proof.
  induction nf as [|[k' x] rest IH]; simpl; [done|].
  intros Hu. apply andb_true_iff in Hu as [Hu Hrest].
  apply andb_true_iff in Hu as [_ Hx].
  destruct (String.eqb k' k); [|by apply IH].
  by intros [= <-].
Qed.

(** Reading a path after a merge: the part of the partial state below the
    path is merged into what was there; a path the partial state does not
    mention is left as it was. *)
Lemma lookup_merge p : forall old new,
  unique_keys new = true ->
  lookup_path p (merge old new) = merge_opt (lookup_path p old) (mentions p new).
Proof.
  induction p as [|k rest IH]; intros old new Hu; [done|].
  destruct new as [| | | | |nf]; simpl mentions;
    try (simpl; clear; induction rest; simpl; done).
  rewrite merge_obj. rewrite unique_keys_obj in Hu.
  cbn [lookup_path]. unfold get_prop at 1. cbn [fields_of].
  rewrite assoc_merge_fields by done.
  fold (get_prop old k).
  destruct (assoc k nf) as [v|] eqn:Hv; simpl; [|done].
  apply IH. by eapply unique_fields_assoc.
Qed.

(** ** Lemmas on strings *)

Lemma prefix_length (a b : string) :
  String.prefix a b = true -> (String.length a <= String.length b)%nat.
Proof.
  revert b. induction a as [|c a IH]; intros b; simpl; [lia|].
  destruct b as [|c' b]; [done|]. simpl.
  destruct (ascii_dec c c'); [|done].
  intros H. apply IH in H. lia.
Qed.

Lemma includes_length (s sub : string) :
  includes s sub = true -> (String.length sub <= String.length s)%nat.
Proof.
  induction s as [|c s IH]; cbn [includes]; intros H;
    apply orb_true_iff in H as [H|H].
  - by apply prefix_length in H.
  - done.
  - by apply prefix_length in H.
  - apply IH in H. simpl. lia.
Qed.

Lemma length_substring (s : string) : forall n m : nat,
  (n + m <= String.length s)%nat -> String.length (String.substring n m s) = m.
Proof.
  induction s as [|c s IH]; intros [|n] [|m]; simpl; intros H; try done; try lia.
  - f_equal. apply IH. lia.
  - apply (IH n 0%nat). lia.
  - apply (IH n (S m)). lia.
Qed.

(** Away from its ends, [substring] is the window between the two indices. *)
Lemma substring_window (s : string) (a b : nat) :
  (a <= b)%nat -> (b <= String.length s)%nat ->
  substring s (Z.of_nat a) (Z.of_nat b) = String.substring a (b - a) s.
Proof.
  intros Hab Hb. unfold substring.
  replace (Z.min (Z.max 0 (Z.min (Z.of_nat a) (Z.of_nat (String.length s))))
                 (Z.max 0 (Z.min (Z.of_nat b) (Z.of_nat (String.length s)))))
    with (Z.of_nat a) by lia.
  replace (Z.max (Z.max 0 (Z.min (Z.of_nat a) (Z.of_nat (String.length s))))
                 (Z.max 0 (Z.min (Z.of_nat b) (Z.of_nat (String.length s)))))
    with (Z.of_nat b) by lia.
  f_equal; lia.
Qed.

Lemma string_filter_list (keep : ascii -> bool) (s : string) :
  list_ascii_of_string (string_filter keep s)
  = List.filter keep (list_ascii_of_string s).
Proof.
  induction s as [|c s IH]; simpl; [done|].
  destruct (keep c); simpl; by rewrite IH.
Qed.

Lemma string_filter_keeps (keep : ascii -> bool) (s : string) (c : ascii) :
  In c (list_ascii_of_string (string_filter keep s)) -> keep c = true.
Proof.
  rewrite string_filter_list. intros H. by apply filter_In in H as [_ H].
Qed.

Lemma array_includes_elem_of (l : list string) (x : string) :
  array_includes l x = true <-> x ∈ l.
Proof.
  unfold array_includes. rewrite existsb_exists, list_elem_of_In. split.
  - intros (y & Hy & E). apply String.eqb_eq in E. by subst.
  - intros H. exists x. split; [done|]. apply String.eqb_refl.
Qed.

(** ** Rules for running a computation *)

Lemma wp_ret {A} (a : A) Q w : Q (Returned a) w -> wp (mret a) Q w.
Proof. done. Qed.

Lemma wp_throw {A} e (Q : outcome A -> App -> Prop) w :
  Q (Thrown e) w -> wp (throw e) Q w.
Proof. done. Qed.

Lemma wp_gets {A} (f : App -> A) Q w : Q (Returned (f w)) w -> wp (gets f) Q w.
Proof. done. Qed.

Lemma wp_modify f Q w : Q (Returned tt) (f w) -> wp (modify f) Q w.
Proof. done. Qed.

Lemma wp_bind {A B} (c : M A) (k : A -> M B) Q w :
  wp c (fun o w' => match o with
                    | Returned a => wp (k a) Q w'
                    | Thrown e => Q (Thrown e) w'
                    end) w ->
  wp (c ≫= k) Q w.
Proof.
  unfold wp, mbind, M_bind. by destruct (c w) as [[a|e] w'].
Qed.

Lemma wp_weaken {A} (c : M A) (Q Q' : outcome A -> App -> Prop) w :
  (forall o w', Q o w' -> Q' o w') -> wp c Q w -> wp c Q' w.
Proof. unfold wp. auto. Qed.

(** The test a stuck conditional is waiting for. *)
Ltac stuck_test b :=
  lazymatch b with
  | context [match ?c with _ => _ end] => stuck_test c
  | _ => b
  end.

(** Evaluation of an options literal and of the fields of the application. *)
Ltac light_eval t :=
  eval cbn [from_option id persist encrypt no_options
            state encrypted salt canary vault_key credentials durable
            window_failMessage history] in t.

(** One step of a run: a rule of the monad, a test of the program, or the
    body of a procedure. *)
Ltac wp_step :=
  app_norm;
  lazymatch goal with
  | |- wp (mbind _ _) _ _ => apply wp_bind
  | |- wp (mret _) _ _ => apply wp_ret
  | |- wp (throw _) _ _ => apply wp_throw
  | |- wp (gets _) _ _ => apply wp_gets
  | |- wp (modify _) _ _ => apply wp_modify
  | |- wp (read_path _ _) _ _ => cbn [read_path]
  | |- wp (if ?b then _ else _) _ _ =>
      let b' := eval cbn in b in
      lazymatch b' with
      | true => change b with true
      | false => change b with false
      | _ =>
          let b2 := light_eval b in
          change b with b2;
          first [ match goal with
                  | H : b2 = true |- _ => rewrite H
                  | H : b2 = false |- _ => rewrite H
                  end
                | let c := stuck_test b2 in destruct c eqn:? ]
      end
  | |- wp (match ?x with _ => _ end) _ _ =>
      let x' := eval cbn in x in
      first [ is_constructor_app x'; change x with x'
            | match goal with
              | H : x = ?v |- _ => is_constructor_app v; rewrite H
              end
            | destruct x eqn:? ]
  | |- wp ?c _ _ => let h := head_of c in unfold h
  end.

Ltac wp_run := repeat wp_step; app_norm.

(** ** Reading a path *)

Lemma read_path_outcome (p : list string) : forall (v : json) (w : App),
  read_path v p w
  = (if readable p v then Returned (lookup_path p v) else Thrown TypeError, w).
Proof.
  induction p as [|k rest IH]; intros v w; [done|].
  cbn [read_path readable lookup_path]. unfold member, mbind, M_bind.
  destruct (nullish v); [done|]. cbn. apply IH.
Qed.

Lemma readable_merge (p : list string) : forall old new,
  unique_keys new = true -> defines p new = true ->
  readable p (merge old new) = true.
Proof.
  induction p as [|k rest IH]; intros old new Hu Hd; [done|].
  destruct new as [| | | | |nf]; try done.
  cbn [defines] in Hd. destruct (assoc k nf) as [v|] eqn:Hv; [|done].
  cbn [readable]. rewrite merge_obj at 1. cbn [nullish negb andb].
  change (get_prop (merge old (JObj nf)) k)
    with (lookup_path [k] (merge old (JObj nf))).
  rewrite lookup_merge by done. cbn [mentions]. rewrite Hv. cbn [merge_opt].
  apply IH; [|done]. rewrite unique_keys_obj in Hu.
  by eapply unique_fields_assoc.
Qed.

Lemma wp_read_state (p : list string) (Q : outcome json -> App -> Prop) (w : App) :
  Q (if readable p (state w) then Returned (lookup_path p (state w))
     else Thrown TypeError) w ->
  wp (read_state p) Q w.
Proof.
  intros H. unfold wp, read_state, mbind, M_bind, gets.
  by rewrite read_path_outcome.
Qed.

(** ** ModuleUser: logout and login *)

Section ModuleUserFacts.

Variable NOTOK_STATUS : list Z.
Variable derive_key : string -> string -> string -> string.
Variable fresh_salt : option string.
Variable app_name : string.

Abbreviation logout' := (logout app_name).
Abbreviation login' := (login NOTOK_STATUS derive_key fresh_salt app_name).

(** *** The salt *)

Lemma logout_salt_run (x : option string) (w : App) :
  salt w = x -> wp logout' (fun _ w' => salt w' = x) w.
Proof. intros H. wp_run; done. Qed.

Lemma login_salt_run (s : string) u p answer (w : App) :
  salt w = Some s -> wp (login' u p answer) (fun _ w' => salt w' = Some s) w.
Proof. intros H. wp_run; congruence. Qed.

Lemma logout_vault_salt_run (v : json) (w : App) :
  lookup_path ["settings"; "vault"; "salt"] (state w) = v ->
  wp logout'
     (fun _ w' => lookup_path ["settings"; "vault"; "salt"] (state w') = v) w.
Proof.
  intros H. wp_run; rewrite ?lookup_merge by reflexivity; done.
Qed.

(** C1.  Every execution of [logout], whether it returns or throws, leaves
    the persisted salt as it was; a salt kept beside the vault flags in the
    state tree survives as well; and whatever login follows, an existing
    salt is still the one that was there before the logout. *)
Theorem logout_keeps_salt (w : App) :
  salt (logout' w).2 = salt w
  /\ lookup_path ["settings"; "vault"; "salt"] (state (logout' w).2)
     = lookup_path ["settings"; "vault"; "salt"] (state w)
  /\ forall s u p answer,
       salt w = Some s ->
       salt (login' u p answer (logout' w).2).2 = Some s.
Proof.
  split; [by apply logout_salt_run|].
  split; [by apply logout_vault_salt_run|].
  intros s u p answer Hs. apply login_salt_run. by apply logout_salt_run.
Qed.

(** *** The updates of logout *)

Lemma logout_history_run (w : App) :
  wp logout'
     (fun o w' =>
        exists issued,
          history w' = history w ++ issued
          /\ Forall (fun c => forall partial opts,
                       c = Call_setState partial opts ->
                       mentions ["user"; "password"] partial = Some (JStr "") ->
                       encrypt opts = None
                       /\ default false (persist opts) = authenticated w) issued
          /\ Forall (fun c => forall partial opts,
                       c = Call_setState partial opts ->
                       mentions ["user"; "authenticated"] partial
                       = Some (JBool false) ->
                       opts = {| encrypt := Some false; persist := Some true |})
                    issued
          /\ (o = Returned tt ->
              setState_calls issued =
                [ (JObj [("user", JObj [("password", JStr "")])],
                   if authenticated w
                   then {| encrypt := None; persist := Some true |}
                   else no_options);
                  (JObj [("settings",
                          JObj [("vault", JObj [("active", JBool false);
                                                ("unlocked", JBool false)])]);
                         ("ui", JObj [("layer", JStr "login")]);
                         ("user", JObj [("authenticated", JBool false)])],
                   {| encrypt := Some false; persist := Some true |});
                  (JObj [("ui", JObj [("menubar",
                                       JObj [("default", JStr "inactive")])])],
                   no_options) ])) w.
Proof.
  wp_run.
  all: eexists; split; [rewrite <- ?app_assoc; reflexivity|].
  all: unfold authenticated; cbn [lookup_path].
  all: repeat match goal with H : truthy _ = _ |- _ => rewrite H end.
  all: split_and!; try (intros; simplify_eq/=; done).
  all: repeat constructor; intros; simplify_eq/=; done.
Qed.

(** C2, as the code has it.  In every execution of [logout], the update
    that clears the password carries no [encrypt] override and asks to be
    persisted exactly when the session was authenticated; the update that
    clears the authentication flag always carries [{encrypt: false,
    persist: true}]; and a logout that returns has issued exactly these two
    updates and the menubar update, in this order. *)
Theorem logout_persistence (w : App) :
  exists issued,
    history (logout' w).2 = history w ++ issued
    /\ Forall (fun c => forall partial opts,
                 c = Call_setState partial opts ->
                 mentions ["user"; "password"] partial = Some (JStr "") ->
                 encrypt opts = None
                 /\ default false (persist opts) = authenticated w) issued
    /\ Forall (fun c => forall partial opts,
                 c = Call_setState partial opts ->
                 mentions ["user"; "authenticated"] partial = Some (JBool false) ->
                 opts = {| encrypt := Some false; persist := Some true |}) issued
    /\ ((logout' w).1 = Returned tt ->
        setState_calls issued =
          [ (JObj [("user", JObj [("password", JStr "")])],
             if authenticated w
             then {| encrypt := None; persist := Some true |}
             else no_options);
            (JObj [("settings",
                    JObj [("vault", JObj [("active", JBool false);
                                          ("unlocked", JBool false)])]);
                   ("ui", JObj [("layer", JStr "login")]);
                   ("user", JObj [("authenticated", JBool false)])],
             {| encrypt := Some false; persist := Some true |});
            (JObj [("ui", JObj [("menubar", JObj [("default", JStr "inactive")])])],
             no_options) ]).
Proof. exact (logout_history_run w). Qed.

(** *** A failed login *)

(** C3.  When the profile request answers with a not-OK status and the
    session was not authenticated, [login] returns, the session is still
    not authenticated, the password in memory is the empty string, and
    neither the salt, the encrypted flag, the canary, the key in memory, the
    vault settings nor durable storage have changed. *)
Theorem failed_login_leaves_vault u p answer (w : App) :
  notok NOTOK_STATUS (status answer) = true ->
  authenticated w = false ->
  (login' u p answer w).1 = Returned tt
  /\ authenticated (login' u p answer w).2 = false
  /\ lookup_path ["user"; "password"] (state (login' u p answer w).2) = JStr ""
  /\ salt (login' u p answer w).2 = salt w
  /\ encrypted (login' u p answer w).2 = encrypted w
  /\ canary (login' u p answer w).2 = canary w
  /\ vault_key (login' u p answer w).2 = vault_key w
  /\ lookup_path ["settings"; "vault"] (state (login' u p answer w).2)
     = lookup_path ["settings"; "vault"] (state w)
  /\ durable (login' u p answer w).2 = durable w.
Proof.
  intros Hnotok Hauth.
  change (wp (login' u p answer)
            (fun o w' => o = Returned tt
               /\ authenticated w' = false
               /\ lookup_path ["user"; "password"] (state w') = JStr ""
               /\ salt w' = salt w
               /\ encrypted w' = encrypted w
               /\ canary w' = canary w
               /\ vault_key w' = vault_key w
               /\ lookup_path ["settings"; "vault"] (state w')
                  = lookup_path ["settings"; "vault"] (state w)
               /\ durable w' = durable w) w).
  wp_run.
  all: unfold authenticated in *; app_norm;
    rewrite !lookup_merge by reflexivity; done.
Qed.
(** *** A successful, entitled login *)

Lemma entitled_login_run u p answer raw (w : App) :
  notok NOTOK_STATUS (status answer) = false ->
  client (data answer) = Some raw ->
  String.eqb raw "" = false ->
  wp (login' u p answer)
     (fun o w' =>
        o = Returned tt ->
        exists layer welcome tree1 tree2 mode,
          history w' = history w ++
            [ Call_api_setupClient (Some (u, p));
              Call_api_client_get "api/permission/systemuser/profile/";
              (if encrypted w then Call_unlockVault u p else Call_loadIdentity u p);
              Call_setState (JObj [("user", JObj [("authenticated", JBool true);
                                                  ("username", JStr u)])])
                            {| encrypt := Some false; persist := Some true |};
              Call_emit "fg:notify" welcome;
              Call_setState
                (JObj [("app", JObj [("installed", JBool false);
                                     ("updated", JBool false)]);
                       ("ui", JObj [("layer", JStr layer);
                                    ("menubar", JObj [("default", JStr "active")])])])
                {| encrypt := Some false; persist := Some true |};
              Call_setState
                (JObj [("user",
                        JObj [("client_id", JStr (replace_non_numeric raw));
                              ("id", JNum (id (data answer)));
                              ("password", JStr p);
                              ("platform",
                               JObj [("tokens",
                                      JObj [("sip", JStr (token (data answer)))])]);
                              ("realName", JStr (realName (data answer)))])])
                {| encrypt := None; persist := Some true |};
              Call_initServices ]
          /\ durable w'
             = (mode, state w') :: (Plain, tree2) :: (Plain, tree1) :: durable w
          /\ (encrypted w = false -> mode = Plain)
          /\ (encrypted w = true ->
              exists s, salt w = Some s /\ mode = Cipher (derive_key s u p))
          /\ lookup_path ["user"; "client_id"] (state w')
             = JStr (replace_non_numeric raw)) w.
Proof.
  intros Hok Hc Hraw. wp_run. all: try (intros; discriminate).
  all: intros _; do 5 eexists; split_and!;
       [rewrite <- ?app_assoc; reflexivity|reflexivity|..].
  all: try done.
  all: try (intros _; eauto).
  all: rewrite !lookup_merge by reflexivity; reflexivity.
Qed.

(** C4.  A login that is answered with an OK status and a non-empty client,
    and that returns, issues three updates.  The first two user-branch
    updates are the two of the claim: [{authenticated: true, username}]
    goes out with [{encrypt: false, persist: true}], and the update with
    client id, user id, password, SIP token and real name goes out with
    [{persist: true}] and no [encrypt] override; between them the
    layer update goes out under the first regime.  The flushes follow the
    options: two in plain text, then one that is ciphered with the derived
    key exactly when the store is encrypted. *)
Theorem login_persistence_regimes u p answer raw (w : App) :
  notok NOTOK_STATUS (status answer) = false ->
  client (data answer) = Some raw ->
  String.eqb raw "" = false ->
  (login' u p answer w).1 = Returned tt ->
  exists issued layer tree1 tree2 mode,
    history (login' u p answer w).2 = history w ++ issued
    /\ setState_calls issued =
         [ (JObj [("user", JObj [("authenticated", JBool true);
                                 ("username", JStr u)])],
            {| encrypt := Some false; persist := Some true |});
           (JObj [("app", JObj [("installed", JBool false);
                                ("updated", JBool false)]);
                  ("ui", JObj [("layer", JStr layer);
                               ("menubar", JObj [("default", JStr "active")])])],
            {| encrypt := Some false; persist := Some true |});
           (JObj [("user",
                   JObj [("client_id", JStr (replace_non_numeric raw));
                         ("id", JNum (id (data answer)));
                         ("password", JStr p);
                         ("platform",
                          JObj [("tokens",
                                 JObj [("sip", JStr (token (data answer)))])]);
                         ("realName", JStr (realName (data answer)))])],
            {| encrypt := None; persist := Some true |}) ]
    /\ durable (login' u p answer w).2
       = (mode, state (login' u p answer w).2)
         :: (Plain, tree2) :: (Plain, tree1) :: durable w
    /\ (encrypted w = false -> mode = Plain)
    /\ (encrypted w = true ->
        exists s, salt w = Some s /\ mode = Cipher (derive_key s u p)).
Proof.
  intros Hok Hc Hraw Hret.
  destruct (entitled_login_run u p answer raw w Hok Hc Hraw Hret)
    as (layer & welcome & tree1 & tree2 & mode & Hh & Hd & Hp & Hk & _).
  eexists _, layer, tree1, tree2, mode. split; [exact Hh|].
  split; [|done]. by destruct (encrypted w).
Qed.

(** C8, as the code has it.  After a login that is answered with an OK
    status and a non-empty client, and that returns, the stored [client_id]
    is the raw client string with every character other than a decimal
    digit and the dot removed; each of its characters is a digit or a
    dot. *)
Theorem login_client_id u p answer raw (w : App) :
  notok NOTOK_STATUS (status answer) = false ->
  client (data answer) = Some raw ->
  String.eqb raw "" = false ->
  (login' u p answer w).1 = Returned tt ->
  exists stored,
    lookup_path ["user"; "client_id"] (state (login' u p answer w).2) = JStr stored
    /\ list_ascii_of_string stored
       = List.filter (fun c => is_digit c || Ascii.eqb c ".")
                     (list_ascii_of_string raw)
    /\ forall c, In c (list_ascii_of_string stored) ->
                 is_digit c = true \/ c = "."%char.
Proof.
  intros Hok Hc Hraw Hret.
  destruct (entitled_login_run u p answer raw w Hok Hc Hraw Hret)
    as (_ & _ & _ & _ & _ & _ & _ & _ & _ & Hid).
  exists (replace_non_numeric raw). split; [exact Hid|].
  split; [apply string_filter_list|].
  intros c Hin. apply string_filter_keeps in Hin.
  apply orb_true_iff in Hin as [H|H]; [by left|right].
  apply Ascii.eqb_eq in H. done.
Qed.

(** *** A login without entitlement *)

Lemma notok_2xx (s : Z) :
  Forall (fun n => ~ (200 <= n < 300)) NOTOK_STATUS ->
  200 <= s < 300 ->
  notok NOTOK_STATUS s = false.
Proof.
  intros Hall Hs. unfold notok.
  induction Hall as [|n l Hn _ IH]; [done|]. simpl.
  rewrite IH, orb_false_r. apply Z.eqb_neq. intros ->. by apply Hn.
Qed.

Lemma bind_cong {A B} (c : M A) (k k' : A -> M B) (w : App) :
  (forall a w', c w = (Returned a, w') -> k a w' = k' a w') ->
  (c ≫= k) w = (c ≫= k') w.
Proof.
  intros H. unfold mbind, M_bind. destruct (c w) as [[a|e] w']; [|done].
  by apply H.
Qed.

Lemma unentitled_login_is_logout u p answer (w : App) :
  notok NOTOK_STATUS (status answer) = false ->
  falsy_client (client (data answer)) = true ->
  login' u p answer w
  = (api_setupClient (Some (u, p));;
     api_client_get "api/permission/systemuser/profile/" answer;;
     logout') w.
Proof.
  intros Hok Hf. unfold login.
  apply bind_cong; intros [] w1 _.
  apply bind_cong; intros res w2 Hres.
  assert (res = answer) as -> by (cbv in Hres; congruence).
  rewrite Hok. destruct (client (data answer)) as [raw|]; [|done].
  simpl in Hf. by rewrite Hf.
Qed.

Lemma unentitled_login_run u p answer (w : App) :
  notok NOTOK_STATUS (status answer) = false ->
  falsy_client (client (data answer)) = true ->
  wp (login' u p answer)
     (fun o w' =>
        exists issued,
          history w' = history w ++ issued
          /\ Forall (fun c => derives_key c = false
                              /\ sets_authenticated c = false) issued
          /\ vault_key w' = vault_key w
          /\ (o = Returned tt ->
              lookup_path ["user"; "authenticated"] (state w') = JBool false
              /\ lookup_path ["user"; "password"] (state w') = JStr ""
              /\ lookup_path ["settings"; "vault"; "active"] (state w') = JBool false
              /\ lookup_path ["settings"; "vault"; "unlocked"] (state w') = JBool false
              /\ lookup_path ["ui"; "layer"] (state w') = JStr "login"
              /\ lookup_path ["ui"; "menubar"; "default"] (state w') = JStr "inactive"
              /\ credentials w' = None
              /\ In (Call_calls_disconnect false) issued
              /\ In (Call_emit "fg:notify"
                       {| icon := "user"; message := Some (t_ "Goodbye!" []);
                          timeout := None; type := "success" |}) issued)) w.
Proof.
  intros Hok Hf.
  destruct (client (data answer)) as [raw|] eqn:Hc; simpl in Hf.
  all: wp_run.
  all: eexists; split; [rewrite <- ?app_assoc; reflexivity|].
  all: split; [repeat constructor|].
  all: split; [done|].
  all: try (intros; discriminate).
  all: intros _; rewrite !lookup_merge by reflexivity.
  all: split_and!; try reflexivity; simpl; tauto.
Qed.

Lemma unentitled_login_outcome_run u p answer (w : App) :
  notok NOTOK_STATUS (status answer) = false ->
  falsy_client (client (data answer)) = true ->
  wp (login' u p answer)
     (fun o w' =>
        o = (if readable ["user"; "authenticated"] (state w) then
               if authenticated w && encrypted w
                  && match vault_key w with Some _ => false | None => true end
               then Thrown StateError_VaultLocked
               else Returned tt
             else Thrown TypeError)
        /\ exists rest,
             history w' = history w ++
               [ Call_api_setupClient (Some (u, p));
                 Call_api_client_get "api/permission/systemuser/profile/";
                 Call_logger_info
                   (toString app_name +:+ "logging out and cleaning up state") ]
               ++ rest) w.
Proof.
  intros Hok Hf.
  destruct (client (data answer)) as [raw|] eqn:Hc; simpl in Hf.
  all: wp_run.
  all: unfold authenticated; cbn [readable lookup_path].
  all: repeat match goal with H : _ = _ |- _ => rewrite H end.
  all: cbn [negb andb]; split; [done|].
  all: eexists; rewrite <- ?app_assoc; reflexivity.
Qed.

(** C5.  When the profile request answers with a 2xx status (a status the
    API client does not list as not-OK) and the profile's [client] is
    falsy, [login] is the logout transition run after the two API calls.
    It enters [logout] on every such run (the log line of [logout] follows
    the two API calls), and it returns unless [logout] itself cannot run:
    it throws a [TypeError] exactly when [state.user] cannot be read, is
    stopped by the store exactly when the session is authenticated, the
    store is encrypted and no key is in memory, and returns in every other
    case.  It makes no call that derives a vault key, leaves the key in
    memory alone and issues no update that sets the authentication flag;
    and whenever it returns it has cleared the flag, the password and the
    vault flags, gone to the login layer, dropped the credentials,
    disconnected the calls without reconnect and sent the farewell
    notification. *)
Theorem unentitled_login_logs_out u p answer (w : App) :
  Forall (fun n => ~ (200 <= n < 300)) NOTOK_STATUS ->
  200 <= status answer < 300 ->
  falsy_client (client (data answer)) = true ->
  login' u p answer w
  = (api_setupClient (Some (u, p));;
     api_client_get "api/permission/systemuser/profile/" answer;;
     logout') w
  /\ (login' u p answer w).1
     = (if readable ["user"; "authenticated"] (state w) then
          if authenticated w && encrypted w
             && match vault_key w with Some _ => false | None => true end
          then Thrown StateError_VaultLocked
          else Returned tt
        else Thrown TypeError)
  /\ exists issued,
       history (login' u p answer w).2 = history w ++ issued
       /\ (exists rest,
             issued =
               [ Call_api_setupClient (Some (u, p));
                 Call_api_client_get "api/permission/systemuser/profile/";
                 Call_logger_info
                   (toString app_name +:+ "logging out and cleaning up state") ]
               ++ rest)
       /\ Forall (fun c => derives_key c = false
                           /\ sets_authenticated c = false) issued
       /\ vault_key (login' u p answer w).2 = vault_key w
       /\ ((login' u p answer w).1 = Returned tt ->
           let w' := (login' u p answer w).2 in
           lookup_path ["user"; "authenticated"] (state w') = JBool false
           /\ lookup_path ["user"; "password"] (state w') = JStr ""
           /\ lookup_path ["settings"; "vault"; "active"] (state w') = JBool false
           /\ lookup_path ["settings"; "vault"; "unlocked"] (state w') = JBool false
           /\ lookup_path ["ui"; "layer"] (state w') = JStr "login"
           /\ lookup_path ["ui"; "menubar"; "default"] (state w') = JStr "inactive"
           /\ credentials w' = None
           /\ In (Call_calls_disconnect false) issued
           /\ In (Call_emit "fg:notify"
                    {| icon := "user"; message := Some (t_ "Goodbye!" []);
                       timeout := None; type := "success" |}) issued).
Proof.
  intros Hall Hs Hf. pose proof (notok_2xx _ Hall Hs) as Hok.
  split; [by apply unentitled_login_is_logout|].
  destruct (unentitled_login_outcome_run u p answer w Hok Hf) as (Ho & rest & Hr).
  split; [exact Ho|].
  destruct (unentitled_login_run u p answer w Hok Hf)
    as (issued & Hh & Hnone & Hk & Heff).
  exists issued. split; [exact Hh|]. split; [|done].
  exists rest. rewrite Hh in Hr. by apply app_inv_head in Hr.
Qed.

(** *** The notification of a failed login *)

Lemma failed_login_run u p answer (w : App) :
  notok NOTOK_STATUS (status answer) = true ->
  wp (login' u p answer)
     (fun o w' =>
        o = Returned tt
        /\ state w' = merge (state w) (JObj [("user", JObj [("password", JStr "")])])
        /\ exists message,
             history w' = history w ++
               [ Call_api_setupClient (Some (u, p));
                 Call_api_client_get "api/permission/systemuser/profile/";
                 Call_emit "fg:notify"
                   {| icon := "warning"; message := message; timeout := None;
                      type := "warning" |};
                 Call_setState (JObj [("user", JObj [("password", JStr "")])])
                               no_options ]
             /\ message =
                match error (data answer) with
                | Some e =>
                    if includes (error_message e) "Too many failed login attempts"
                    then
                      Some (t_ "Too many failed login attempts; try again at {date}"
                               [("date",
                                 substring (error_message e)
                                   (Z.of_nat (String.length (error_message e)) - 9)
                                   (Z.of_nat (String.length (error_message e)) - 1))])
                    else None
                | None =>
                    Some (t_ "Failed to login. Please check your credentials." [])
                end) w.
Proof.
  intros Hnotok. wp_run.
  all: split_and!; try done.
  all: eexists; split; [rewrite <- ?app_assoc; reflexivity|done].
Qed.

(** C7.  When a failed login's error message contains the rate-limit
    marker, the notification carries, as its [date], the eight characters
    of the message that precede its last character: the characters at
    indices [length - 9] to [length - 2]. *)
Theorem rate_limited_login_date u p answer e (w : App) :
  notok NOTOK_STATUS (status answer) = true ->
  error (data answer) = Some e ->
  includes (error_message e) "Too many failed login attempts" = true ->
  exists date,
    history (login' u p answer w).2 = history w ++
      [ Call_api_setupClient (Some (u, p));
        Call_api_client_get "api/permission/systemuser/profile/";
        Call_emit "fg:notify"
          {| icon := "warning";
             message :=
               Some (t_ "Too many failed login attempts; try again at {date}"
                        [("date", date)]);
             timeout := None; type := "warning" |};
        Call_setState (JObj [("user", JObj [("password", JStr "")])]) no_options ]
    /\ String.length date = 8%nat
    /\ (30 <= String.length (error_message e))%nat
    /\ forall i : nat,
         (i < 8)%nat ->
         String.get i date
         = String.get (String.length (error_message e) - 9 + i) (error_message e).
Proof.
  intros Hnotok He Hinc.
  destruct (failed_login_run u p answer w Hnotok) as (_ & _ & msg & Hh & Hm).
  rewrite He, Hinc in Hm. subst msg.
  pose proof (includes_length _ _ Hinc) as Hlen. simpl in Hlen.
  set (m := error_message e) in *. set (n := String.length m) in *.
  replace (Z.of_nat n - 9) with (Z.of_nat (n - 9)) in Hh by lia.
  replace (Z.of_nat n - 1) with (Z.of_nat (n - 1)) in Hh by lia.
  rewrite substring_window in Hh by (unfold n; lia).
  replace (n - 1 - (n - 9))%nat with 8%nat in Hh by lia.
  eexists. split; [exact Hh|].
  split; [apply length_substring; unfold n; lia|].
  split; [done|].
  intros i Hi. rewrite substring_correct1 by done. f_equal. lia.
Qed.

(** *** The global [window.failMessage] *)

Lemma login_failMessage_run u p answer (w : App) :
  wp (login' u p answer)
     (fun _ w' => window_failMessage w'
                  = match rate_limit_message NOTOK_STATUS answer with
                    | Some m => Some m
                    | None => window_failMessage w
                    end) w.
Proof. unfold rate_limit_message. wp_run; done. Qed.

Lemma logout_failMessage_run (w : App) :
  wp logout' (fun _ w' => window_failMessage w' = window_failMessage w) w.
Proof. wp_run; done. Qed.

(** C10.  [login] writes the raw failure message to [window.failMessage]
    exactly when the answer has a not-OK status and an error message that
    contains the rate-limit marker; on every other path of [login], and in
    [logout], the global keeps its value.  The write is no part of the
    state tree: on that path the tree changes by the password clear
    alone. *)
Theorem login_failMessage u p answer (w : App) :
  window_failMessage (login' u p answer w).2
  = match rate_limit_message NOTOK_STATUS answer with
    | Some m => Some m
    | None => window_failMessage w
    end
  /\ window_failMessage (logout' w).2 = window_failMessage w
  /\ (forall m,
        rate_limit_message NOTOK_STATUS answer = Some m ->
        exists e,
          error (data answer) = Some e /\ m = error_message e
          /\ state (login' u p answer w).2
             = merge (state w) (JObj [("user", JObj [("password", JStr "")])])).
Proof.
  split; [exact (login_failMessage_run u p answer w)|].
  split; [exact (logout_failMessage_run w)|].
  intros m. unfold rate_limit_message.
  destruct (notok NOTOK_STATUS (status answer)) eqn:Hnotok; [|done].
  destruct (error (data answer)) as [e|]; [|done].
  destruct (includes _ _); [|done]. intros [= <-].
  exists e. split_and!; try done.
  by destruct (failed_login_run u p answer w Hnotok) as (_ & Hs & _).
Qed.

(** *** More on a failed login *)

(** X3.  A failed login whose answer has no error body returns after exactly four
    calls: the client set-up, the profile request, one warning notification
    with the generic text, and the unpersisted password clear. *)
Theorem failed_login_without_error_body u p answer (w : App) :
  notok NOTOK_STATUS (status answer) = true ->
  error (data answer) = None ->
  (login' u p answer w).1 = Returned tt
  /\ history (login' u p answer w).2 = history w ++
       [ Call_api_setupClient (Some (u, p));
         Call_api_client_get "api/permission/systemuser/profile/";
         Call_emit "fg:notify"
           {| icon := "warning";
              message :=
                Some (t_ "Failed to login. Please check your credentials." []);
              timeout := None; type := "warning" |};
         Call_setState (JObj [("user", JObj [("password", JStr "")])]) no_options ].
Proof.
  intros Hnotok He.
  destruct (failed_login_run u p answer w Hnotok) as (Hr & _ & msg & Hh & Hm).
  rewrite He in Hm. subst msg. done.
Qed.

Lemma failed_login_credentials_run u p answer (w : App) :
  notok NOTOK_STATUS (status answer) = true ->
  wp (login' u p answer) (fun _ w' => credentials w' = Some (u, p)) w.
Proof. intros Hnotok. wp_run; done. Qed.

(** X4.  A failed login clears the password of the state tree but not the API
    client: the client is set up once, with the credentials that were just
    rejected, and still holds them when [login] returns. *)
Theorem failed_login_keeps_client_credentials u p answer (w : App) :
  notok NOTOK_STATUS (status answer) = true ->
  credentials (login' u p answer w).2 = Some (u, p)
  /\ lookup_path ["user"; "password"] (state (login' u p answer w).2) = JStr ""
  /\ exists issued,
       history (login' u p answer w).2 = history w ++ issued
       /\ omap (fun c => match c with
                         | Call_api_setupClient c => Some c
                         | _ => None
                         end) issued = [Some (u, p)].
Proof.
  intros Hnotok.
  split; [exact (failed_login_credentials_run u p answer w Hnotok)|].
  destruct (failed_login_run u p answer w Hnotok) as (_ & Hs & msg & Hh & _).
  split; [rewrite Hs; by rewrite lookup_merge|].
  eexists. split; [exact Hh|done].
Qed.

(** *** More on logout *)

Lemma logout_outcome_run (w : App) :
  wp logout'
     (fun o w' =>
        o = (if readable ["user"; "authenticated"] (state w) then
               if authenticated w && encrypted w
                  && match vault_key w with Some _ => false | None => true end
               then Thrown StateError_VaultLocked
               else Returned tt
             else Thrown TypeError)
        /\ (o = Thrown TypeError ->
            state w' = state w /\ credentials w' = credentials w
            /\ durable w' = durable w
            /\ history w' = history w ++
                 [Call_logger_info
                    (toString app_name +:+ "logging out and cleaning up state")])
        /\ (o = Thrown StateError_VaultLocked ->
            state w' = state w /\ credentials w' = credentials w
            /\ durable w' = durable w)) w.
Proof.
  wp_run.
  all: unfold authenticated; cbn [readable lookup_path].
  all: repeat match goal with H : _ = _ |- _ => rewrite H end.
  all: cbn [negb andb]; split_and!; try done.
Qed.

(** X5.  When [logout] throws.  It throws a [TypeError], before any update and
    with nothing done but the log line, exactly when [state.user] cannot be
    read; it is stopped by the store, with the state tree, the credentials
    and durable storage untouched, exactly when the session is authenticated,
    the store is encrypted and no key is in memory; otherwise it returns. *)
Theorem logout_outcome (w : App) :
  (logout' w).1
  = (if readable ["user"; "authenticated"] (state w) then
       if authenticated w && encrypted w
          && match vault_key w with Some _ => false | None => true end
       then Thrown StateError_VaultLocked
       else Returned tt
     else Thrown TypeError)
  /\ ((logout' w).1 = Thrown TypeError ->
      state (logout' w).2 = state w
      /\ credentials (logout' w).2 = credentials w
      /\ durable (logout' w).2 = durable w
      /\ history (logout' w).2 = history w ++
           [Call_logger_info
              (toString app_name +:+ "logging out and cleaning up state")])
  /\ ((logout' w).1 = Thrown StateError_VaultLocked ->
      state (logout' w).2 = state w
      /\ credentials (logout' w).2 = credentials w
      /\ durable (logout' w).2 = durable w).
Proof. exact (logout_outcome_run w). Qed.

Lemma logout_returned_run (w : App) :
  wp logout'
     (fun o w' =>
        o = Returned tt ->
        lookup_path ["user"; "authenticated"] (state w') = JBool false
        /\ lookup_path ["user"; "password"] (state w') = JStr ""
        /\ lookup_path ["settings"; "vault"; "active"] (state w') = JBool false
        /\ lookup_path ["settings"; "vault"; "unlocked"] (state w') = JBool false
        /\ lookup_path ["ui"; "layer"] (state w') = JStr "login"
        /\ lookup_path ["ui"; "menubar"; "default"] (state w') = JStr "inactive"
        /\ lookup_path ["user"; "username"] (state w')
           = lookup_path ["user"; "username"] (state w)
        /\ credentials w' = None
        /\ vault_key w' = vault_key w
        /\ exists flushes,
             durable w' = flushes ++ durable w
             /\ map fst flushes
                = if authenticated w
                  then [Plain; if encrypted w
                               then match vault_key w with
                                    | Some k => Cipher k
                                    | None => Plain
                                    end
                               else Plain]
                  else [Plain]) w.
Proof.
  wp_run. all: try (intros; discriminate).
  all: intros _; rewrite !lookup_merge by reflexivity.
  all: unfold authenticated; cbn [lookup_path].
  all: repeat match goal with H : _ = _ |- _ => rewrite H end.
  all: split_and!; try reflexivity.
  all: try (by eexists [_; _]); try (by eexists [_]).
Qed.

(** X6.  A [logout] that returns has reset the session: the authentication flag,
    the password, both vault flags, the layer and the menubar are cleared in
    the state tree, the user name is kept, the API client has no credentials,
    and the key in memory is still there.  Durable storage has received one
    plain flush, preceded, when the session was authenticated, by the flush
    of the password clear under the store's own policy. *)
Theorem logout_resets_session (w : App) :
  (logout' w).1 = Returned tt ->
  lookup_path ["user"; "authenticated"] (state (logout' w).2) = JBool false
  /\ lookup_path ["user"; "password"] (state (logout' w).2) = JStr ""
  /\ lookup_path ["settings"; "vault"; "active"] (state (logout' w).2) = JBool false
  /\ lookup_path ["settings"; "vault"; "unlocked"] (state (logout' w).2) = JBool false
  /\ lookup_path ["ui"; "layer"] (state (logout' w).2) = JStr "login"
  /\ lookup_path ["ui"; "menubar"; "default"] (state (logout' w).2) = JStr "inactive"
  /\ lookup_path ["user"; "username"] (state (logout' w).2)
     = lookup_path ["user"; "username"] (state w)
  /\ credentials (logout' w).2 = None
  /\ vault_key (logout' w).2 = vault_key w
  /\ exists flushes,
       durable (logout' w).2 = flushes ++ durable w
       /\ map fst flushes
          = if authenticated w
            then [Plain; if encrypted w
                         then match vault_key w with
                              | Some k => Cipher k
                              | None => Plain
                              end
                         else Plain]
            else [Plain].
Proof. exact (logout_returned_run w). Qed.

(** *** More on a successful login *)

Lemma entitled_login_session_run u p answer raw (w : App) :
  notok NOTOK_STATUS (status answer) = false ->
  client (data answer) = Some raw ->
  String.eqb raw "" = false ->
  wp (login' u p answer)
     (fun o w' =>
        o = Returned tt ->
        let installed := truthy (lookup_path ["app"; "installed"] (state w)) in
        lookup_path ["user"; "authenticated"] (state w') = JBool true
        /\ lookup_path ["user"; "username"] (state w') = JStr u
        /\ lookup_path ["user"; "password"] (state w') = JStr p
        /\ lookup_path ["user"; "id"] (state w') = JNum (id (data answer))
        /\ lookup_path ["user"; "platform"; "tokens"; "sip"] (state w')
           = JStr (token (data answer))
        /\ lookup_path ["user"; "platform"; "tokens"; "portal"] (state w')
           = lookup_path ["user"; "platform"; "tokens"; "portal"] (state w)
        /\ lookup_path ["user"; "realName"] (state w')
           = JStr (realName (data answer))
        /\ lookup_path ["app"; "installed"] (state w') = JBool false
        /\ lookup_path ["app"; "updated"] (state w') = JBool false
        /\ lookup_path ["ui"; "menubar"; "default"] (state w') = JStr "active"
        /\ lookup_path ["ui"; "layer"] (state w')
           = JStr (if installed then "settings" else "contacts")
        /\ credentials w' = Some (u, p)
        /\ (exists s, salt w' = Some s
                      /\ vault_key w' = Some (derive_key s u p))
        /\ exists before after,
             history w' = history w ++ before ++
               [ Call_emit "fg:notify"
                   (if installed then
                      {| icon := "settings";
                         message :=
                           Some (t_ "Review your softphone and audio settings." []);
                         timeout := Some 0; type := "warning" |}
                    else
                      {| icon := "user";
                         message := Some (t_ "Welcome back, {user}"
                                             [("user", realName (data answer))]);
                         timeout := None; type := "success" |}) ]
               ++ after ++ [Call_initServices]
             /\ Forall (fun c => match c with Call_emit _ _ => False | _ => True end)
                       (before ++ after)) w.
Proof.
  intros Hok Hc Hraw. wp_run. all: try (intros; discriminate).
  all: intros _; cbv zeta.
  all: match goal with
       | H : truthy (get_prop (get_prop ?x "app") "installed") = ?b |- _ =>
           change (get_prop (get_prop x "app") "installed")
             with (lookup_path ["app"; "installed"] x) in H;
           rewrite lookup_merge in H by reflexivity;
           change (truthy (lookup_path ["app"; "installed"] (state w)) = b) in H;
           rewrite H
       end.
  all: rewrite !lookup_merge by reflexivity.
  all: repeat (split; [reflexivity|]).
  all: split; [eauto|].
  all: eexists [_; _; _; _], [_; _]; split;
         [rewrite <- ?app_assoc; reflexivity|].
  all: repeat constructor.
Qed.

(** X7.  What a returned, entitled login leaves behind.  The state tree holds the
    session: authenticated, the user name and password that were entered, the
    profile's id, SIP token and real name; the portal token is untouched; the
    install and update flags are off and the menubar is active.  The API
    client holds the credentials and the key in memory is the one derived
    from the persisted salt and the credentials.  The layer is the settings
    page exactly when [state.app.installed] was truthy before the login, and
    the single notification of the login is the settings reminder in that
    case and the welcome with the real name otherwise; the login ends by
    starting the services. *)
Theorem entitled_login_session u p answer raw (w : App) :
  notok NOTOK_STATUS (status answer) = false ->
  client (data answer) = Some raw ->
  String.eqb raw "" = false ->
  (login' u p answer w).1 = Returned tt ->
  let w' := (login' u p answer w).2 in
  let installed := truthy (lookup_path ["app"; "installed"] (state w)) in
  lookup_path ["user"; "authenticated"] (state w') = JBool true
  /\ lookup_path ["user"; "username"] (state w') = JStr u
  /\ lookup_path ["user"; "password"] (state w') = JStr p
  /\ lookup_path ["user"; "id"] (state w') = JNum (id (data answer))
  /\ lookup_path ["user"; "platform"; "tokens"; "sip"] (state w')
     = JStr (token (data answer))
  /\ lookup_path ["user"; "platform"; "tokens"; "portal"] (state w')
     = lookup_path ["user"; "platform"; "tokens"; "portal"] (state w)
  /\ lookup_path ["user"; "realName"] (state w') = JStr (realName (data answer))
  /\ lookup_path ["app"; "installed"] (state w') = JBool false
  /\ lookup_path ["app"; "updated"] (state w') = JBool false
  /\ lookup_path ["ui"; "menubar"; "default"] (state w') = JStr "active"
  /\ lookup_path ["ui"; "layer"] (state w')
     = JStr (if installed then "settings" else "contacts")
  /\ credentials w' = Some (u, p)
  /\ (exists s, salt w' = Some s /\ vault_key w' = Some (derive_key s u p))
  /\ exists before after,
       history w' = history w ++ before ++
         [ Call_emit "fg:notify"
             (if installed then
                {| icon := "settings";
                   message := Some (t_ "Review your softphone and audio settings." []);
                   timeout := Some 0; type := "warning" |}
              else
                {| icon := "user";
                   message := Some (t_ "Welcome back, {user}"
                                       [("user", realName (data answer))]);
                   timeout := None; type := "success" |}) ]
         ++ after ++ [Call_initServices]
       /\ Forall (fun c => match c with Call_emit _ _ => False | _ => True end)
                 (before ++ after).
Proof.
  intros Hok Hc Hraw Hret.
  exact (entitled_login_session_run u p answer raw w Hok Hc Hraw Hret).
Qed.

Lemma login_aborted_run u p answer (w : App) :
  wp (login' u p answer)
     (fun o w' =>
        o = Thrown LockError_InvalidPassword
        \/ o = Thrown LockError_NoVaultConfigured
        \/ o = Thrown IdentityError ->
        state w' = state w
        /\ durable w' = durable w
        /\ vault_key w' = vault_key w
        /\ salt w' = salt w
        /\ exists issued,
             history w' = history w ++ issued
             /\ setState_calls issued = []
             /\ Forall (fun c => match c with
                                 | Call_emit _ _ | Call_initServices => False
                                 | _ => True
                                 end) issued) w.
Proof.
  wp_run. all: try (intros [|[|]]; discriminate).
  all: intros _; split_and!; try done.
  all: eexists; split; [rewrite <- ?app_assoc; reflexivity|].
  all: split; [reflexivity|repeat constructor].
Qed.

(** X8.  A login that the vault stops.  When [login] ends in a [LockError] or an
    [IdentityError], the state tree, durable storage, the salt and the key in
    memory are what they were, and the login has issued no update, sent no
    notification and not started the services: the authentication flag is
    set only after the vault has opened. *)
Theorem login_stopped_by_vault u p answer (w : App) :
  (login' u p answer w).1 = Thrown LockError_InvalidPassword
  \/ (login' u p answer w).1 = Thrown LockError_NoVaultConfigured
  \/ (login' u p answer w).1 = Thrown IdentityError ->
  state (login' u p answer w).2 = state w
  /\ durable (login' u p answer w).2 = durable w
  /\ vault_key (login' u p answer w).2 = vault_key w
  /\ salt (login' u p answer w).2 = salt w
  /\ exists issued,
       history (login' u p answer w).2 = history w ++ issued
       /\ setState_calls issued = []
       /\ Forall (fun c => match c with
                           | Call_emit _ _ | Call_initServices => False
                           | _ => True
                           end) issued.
Proof. exact (login_aborted_run u p answer w). Qed.

(** *** Refreshing the portal token *)

Lemma platformData_run answer (w : App) :
  wp (_platformData answer)
     (fun o w' =>
        o = Returned tt
        /\ state w'
           = merge (state w)
               (JObj [("user",
                       JObj [("platform",
                              JObj [("tokens",
                                     JObj [("portal",
                                            JStr (token (data answer)))])])])])
        /\ history w' = history w ++
             [ Call_api_client_get "api/autologin/token/";
               Call_setState
                 (JObj [("user",
                         JObj [("platform",
                                JObj [("tokens",
                                       JObj [("portal",
                                              JStr (token (data answer)))])])])])
                 no_options ]
        /\ durable w' = durable w
        /\ credentials w' = credentials w
        /\ vault_key w' = vault_key w
        /\ salt w' = salt w) w.
Proof.
  wp_run. split_and!; try done. by rewrite <- app_assoc.
Qed.

(** X1.  [_platformData] never looks at the status of the answer and never
    throws: it stores the answer's token at [user.platform.tokens.portal],
    leaves every path of the state tree that its update does not mention as
    it was (the SIP token, the authentication flag and the password among
    them), and writes nothing to durable storage. *)
Theorem platformData_updates_portal_only answer (w : App) :
  (_platformData answer w).1 = Returned tt
  /\ lookup_path ["user"; "platform"; "tokens"; "portal"]
       (state (_platformData answer w).2) = JStr (token (data answer))
  /\ (forall p,
        mentions p (JObj [("user",
                           JObj [("platform",
                                  JObj [("tokens",
                                         JObj [("portal",
                                                JStr (token (data answer)))])])])])
        = None ->
        lookup_path p (state (_platformData answer w).2) = lookup_path p (state w))
  /\ lookup_path ["user"; "platform"; "tokens"; "sip"]
       (state (_platformData answer w).2)
     = lookup_path ["user"; "platform"; "tokens"; "sip"] (state w)
  /\ durable (_platformData answer w).2 = durable w
  /\ credentials (_platformData answer w).2 = credentials w.
Proof.
  destruct (platformData_run answer w) as (Hr & Hs & _ & Hd & Hc & _).
  split; [exact Hr|]. rewrite Hs.
  split; [by rewrite lookup_merge|].
  split; [intros p Hp; rewrite lookup_merge by reflexivity; by rewrite Hp|].
  split; [by rewrite lookup_merge|]. done.
Qed.

Lemma on_update_token_run answer (w : App) :
  wp (on_update_token answer)
     (fun o _ => o = Returned (JObj [("token", JStr (token (data answer)))])) w.
Proof.
  unfold on_update_token. apply wp_bind.
  eapply wp_weaken; [|apply platformData_run].
  intros o w' (-> & Hs & _).
  apply wp_bind, wp_read_state. rewrite Hs.
  rewrite readable_merge, lookup_merge by reflexivity. by apply wp_ret.
Qed.

(** X2.  The handler of [bg:user:update-token] hands its callback exactly the
    token that the token request delivered, from every state of the
    application: it cannot throw, and a second refresh overrides the
    first. *)
Theorem update_token_round_trip answer (w : App) :
  (on_update_token answer w).1
  = Returned (JObj [("token", JStr (token (data answer)))])
  /\ forall earlier,
       (on_update_token answer (_platformData earlier w).2).1
       = Returned (JObj [("token", JStr (token (data answer)))]).
Proof.
  split; [exact (on_update_token_run answer w)|].
  intros earlier. exact (on_update_token_run answer _).
Qed.

End ModuleUserFacts.

(** ** CallSwitch: newCallAllowed *)

Lemma newCallAllowed_false (calls : gmap string CallSwitch.Call) :
  CallSwitch.newCallAllowed calls = false <->
  exists callId c,
    calls !! callId = Some c
    /\ CallSwitch.status c ∈ ["new"; "create"; "invite"].
Proof.
  unfold CallSwitch.newCallAllowed.
  apply (map_fold_weak_ind
           (fun (b : bool) (m : gmap string CallSwitch.Call) =>
              b = false <->
              exists callId c, m !! callId = Some c
                /\ CallSwitch.status c ∈ ["new"; "create"; "invite"])).
  - split; [done|]. intros (k & c & H & _). by rewrite lookup_empty in H.
  - intros k c m r Hk IH.
    destruct (array_includes ["new"; "create"; "invite"] (CallSwitch.status c)) eqn:E.
    + split; [|done]. intros _. exists k, c. rewrite lookup_insert_eq.
      split; [done|]. by apply array_includes_elem_of.
    + rewrite IH. split.
      * intros (k' & c' & H & Hin). exists k', c'. split; [|done].
        rewrite lookup_insert_ne; [done|]. intros ->. by rewrite Hk in H.
      * intros (k' & c' & H & Hin).
        destruct (decide (k = k')) as [->|Hne].
        -- rewrite lookup_insert_eq in H. injection H as <-.
           apply array_includes_elem_of in Hin. congruence.
        -- rewrite lookup_insert_ne in H by done. eauto.
Qed.

(** C9.  For every finite set of calls, [newCallAllowed] answers [false]
    exactly when some call has a status among [new], [create] and [invite],
    and [true] exactly when no call has; calls in any other status do not
    matter. *)
Theorem newCallAllowed_spec (calls : gmap string CallSwitch.Call) :
  (CallSwitch.newCallAllowed calls = false <->
   exists callId c,
     calls !! callId = Some c
     /\ CallSwitch.status c ∈ ["new"; "create"; "invite"])
  /\ (CallSwitch.newCallAllowed calls = true <->
      forall callId c,
        calls !! callId = Some c ->
        CallSwitch.status c ∉ ["new"; "create"; "invite"]).
Proof.
  split; [apply newCallAllowed_false|].
  destruct (CallSwitch.newCallAllowed calls) eqn:E.
  - split; [|done]. intros _ k c Hk Hin.
    assert (CallSwitch.newCallAllowed calls = false); [|congruence].
    apply newCallAllowed_false. eauto.
  - apply newCallAllowed_false in E as (k & c & Hk & Hin).
    split; [done|]. intros H. exfalso. by apply (H k c).
Qed.

(** ** CallSwitch: icons, classes and clicks *)

Lemma newCallAllowed_true (calls : gmap string CallSwitch.Call) :
  CallSwitch.newCallAllowed calls = true <->
  forall callId c,
    calls !! callId = Some c -> CallSwitch.status c ∉ blocking_statuses.
Proof.
  destruct (CallSwitch.newCallAllowed calls) eqn:E.
  - split; [|done]. intros _ k c Hk Hin.
    assert (CallSwitch.newCallAllowed calls = false); [|congruence].
    apply newCallAllowed_false. eauto.
  - apply newCallAllowed_false in E as (k & c & Hk & Hin).
    split; [done|]. intros H. exfalso. by apply (H k c).
Qed.

Lemma string_eqb_true (a b : string) : String.eqb a b = true -> a = b.
Proof. apply String.eqb_eq. Qed.

(** Decide the status tests of a call, one after the other. *)
Ltac status_cases c :=
  unfold CallSwitch.callIcon, CallSwitch.classes, CallSwitch.activateOrDeleteCall,
    CallSwitch.set_class, blocking_statuses, ended_statuses, array_includes;
  cbn [existsb upsert];
  repeat match goal with
    | |- context [String.eqb (CallSwitch.status c) ?lit] =>
        let E := fresh "E" in
        destruct (String.eqb (CallSwitch.status c) lit) eqn:E;
        [apply string_eqb_true in E; rewrite E in *; cbn in *|]
    end.

(** X10.  The icon of a call is one of seven; it is one of [close], [dialpad],
    [incoming-call] and [outgoing-call] exactly when the call's status keeps
    a new call from being started, and it is [hang-up] exactly when the call
    has ended.  So a new call is allowed exactly when every call of the
    switch shows [hang-up], [on-hold] or [phone]. *)
Theorem callIcon_and_newCallAllowed (calls : gmap string CallSwitch.Call) :
  (forall c,
     CallSwitch.callIcon c
       ∈ ["close"; "dialpad"; "hang-up"; "incoming-call"; "outgoing-call";
          "on-hold"; "phone"]
     /\ (CallSwitch.status c ∈ blocking_statuses <->
         CallSwitch.callIcon c
           ∈ ["close"; "dialpad"; "incoming-call"; "outgoing-call"])
     /\ (CallSwitch.status c ∈ ended_statuses <->
         CallSwitch.callIcon c = "hang-up"))
  /\ (CallSwitch.newCallAllowed calls = true <->
      forall callId c,
        calls !! callId = Some c ->
        CallSwitch.callIcon c ∈ ["hang-up"; "on-hold"; "phone"]).
Proof.
  assert (forall c,
     CallSwitch.callIcon c
       ∈ ["close"; "dialpad"; "hang-up"; "incoming-call"; "outgoing-call";
          "on-hold"; "phone"]
     /\ (CallSwitch.status c ∈ blocking_statuses <->
         CallSwitch.callIcon c
           ∈ ["close"; "dialpad"; "incoming-call"; "outgoing-call"])
     /\ (CallSwitch.status c ∈ ended_statuses <->
         CallSwitch.callIcon c = "hang-up")) as Hicon.
  { intros c.
    rewrite <- !array_includes_elem_of.
    status_cases c; destruct (CallSwitch.active c), (CallSwitch.hold_active c);
      cbn; rewrite <- ?array_includes_elem_of; cbn; split_and!; done. }
  split; [exact Hicon|].
  rewrite newCallAllowed_true.
  split; intros H k c Hk; specialize (H k c Hk);
    destruct (Hicon c) as (Hall & Hb & _).
  - assert (CallSwitch.callIcon c
            ∉ ["close"; "dialpad"; "incoming-call"; "outgoing-call"]) as Hn
      by (intros Hin; by apply Hb in Hin).
    clear Hb H. revert Hall Hn. generalize (CallSwitch.callIcon c). intros icon.
    rewrite !elem_of_cons, !elem_of_nil. tauto.
  - intros Hin. apply Hb in Hin. clear Hb Hall. revert H Hin.
    generalize (CallSwitch.callIcon c). intros icon.
    rewrite !elem_of_cons, !elem_of_nil.
    intros [->|[->|[->|[]]]] [?|[?|[?|[?|[]]]]]; discriminate.
Qed.

(** X11.  The classes of a call.  Outside the call button there are none.  On the
    call button, [active] repeats the call's flag; exactly one of [new-call],
    [state-hangup] and [state-active] is set, [new-call] for the status [new]
    and [state-hangup] exactly for the calls whose icon is [hang-up]; and
    [hint] is set exactly for a call that is not new and whose transfer type
    is [accept]. *)
Theorem classes_of_call (c : CallSwitch.Call) :
  (forall block,
     String.eqb block "call-button" = false ->
     CallSwitch.classes c block = JObj [])
  /\ get_prop (CallSwitch.classes c "call-button") "active"
     = JBool (CallSwitch.active c)
  /\ List.length
       (List.filter
          (fun k => truthy (get_prop (CallSwitch.classes c "call-button") k))
          ["new-call"; "state-hangup"; "state-active"]) = 1%nat
  /\ (truthy (get_prop (CallSwitch.classes c "call-button") "new-call") = true
      <-> CallSwitch.status c = "new")
  /\ (truthy (get_prop (CallSwitch.classes c "call-button") "state-hangup") = true
      <-> CallSwitch.callIcon c = "hang-up")
  /\ (truthy (get_prop (CallSwitch.classes c "call-button") "hint") = true
      <-> CallSwitch.status c <> "new" /\ CallSwitch.transfer_type c = "accept").
Proof.
  split.
  { intros block Hb. unfold CallSwitch.classes. by rewrite Hb. }
  assert (forall s : string, String.eqb s "new" = false -> s <> "new") as Hne
    by (intros s H ->; by rewrite String.eqb_refl in H).
  status_cases c;
    destruct (CallSwitch.active c), (CallSwitch.hold_active c);
    destruct (String.eqb (CallSwitch.transfer_type c) "accept") eqn:Et;
    try (apply string_eqb_true in Et; rewrite Et);
    cbn; split_and!; try done.
  all: try (split; [intros _|done]; split; [auto|done]).
  all: try (split; [done|intros [_ Ha]; rewrite Ha in Et; done]).
  all: try (split; [done|intros [Hn _]; done]).
  all: split; [done|intros Hn; destruct (Hne _ E Hn)].
Qed.

(** X12.  A click on a call.  The click deletes the call exactly when the call
    shows the [close] icon, and activates it otherwise; either way the event
    names the call by its id, and an activation never asks to hold or unhold
    another call. *)
Theorem activateOrDeleteCall_event (c : CallSwitch.Call) :
  ((CallSwitch.activateOrDeleteCall c).1 = "bg:calls:call_delete"
   <-> CallSwitch.callIcon c = "close")
  /\ ((CallSwitch.activateOrDeleteCall c).1 = "bg:calls:call_activate"
      <-> CallSwitch.callIcon c <> "close")
  /\ get_prop (CallSwitch.activateOrDeleteCall c).2 "callId"
     = JStr (CallSwitch.id c)
  /\ ((CallSwitch.activateOrDeleteCall c).1 = "bg:calls:call_activate" ->
      get_prop (CallSwitch.activateOrDeleteCall c).2 "holdInactive" = JBool false
      /\ get_prop (CallSwitch.activateOrDeleteCall c).2 "unholdActive" = JBool false).
Proof.
  status_cases c;
    destruct (CallSwitch.active c), (CallSwitch.hold_active c);
    cbn; split_and!; try done.
Qed.

(** X13.  How the answer of [newCallAllowed] moves with the set of calls: it is
    [true] for no calls; putting a call under an id gives [false] when that
    call's status is [new], [create] or [invite], and otherwise the answer
    for the other calls; and taking a call away never turns [true] into
    [false]. *)
Theorem newCallAllowed_insert_delete (calls : gmap string CallSwitch.Call) :
  CallSwitch.newCallAllowed ∅ = true
  /\ (forall callId c,
        CallSwitch.newCallAllowed (<[callId := c]> calls)
        = negb (array_includes blocking_statuses (CallSwitch.status c))
          && CallSwitch.newCallAllowed (delete callId calls))
  /\ (forall callId,
        CallSwitch.newCallAllowed calls = true ->
        CallSwitch.newCallAllowed (delete callId calls) = true).
Proof.
  split; [done|]. split.
  - intros k c.
    destruct (CallSwitch.newCallAllowed (<[k:=c]> calls)) eqn:E.
    + symmetry. apply andb_true_iff.
      rewrite newCallAllowed_true in E. split.
      * apply negb_true_iff, not_true_is_false. intros Hb.
        apply array_includes_elem_of in Hb.
        apply (E k c); [apply lookup_insert_eq|done].
      * apply newCallAllowed_true. intros k' c' Hk'.
        apply lookup_delete_Some in Hk' as [Hne Hk'].
        apply (E k' c'). by rewrite lookup_insert_ne.
    + symmetry. apply andb_false_iff.
      apply newCallAllowed_false in E as (k' & c' & Hk' & Hin).
      destruct (decide (k = k')) as [->|Hne].
      * rewrite lookup_insert_eq in Hk'. injection Hk' as <-.
        left. apply negb_false_iff. by apply array_includes_elem_of.
      * rewrite lookup_insert_ne in Hk' by done.
        right. apply newCallAllowed_false. exists k', c'.
        split; [|done]. by rewrite lookup_delete_ne.
  - intros k H. apply newCallAllowed_true.
    rewrite newCallAllowed_true in H.
    intros k' c' Hk'. apply lookup_delete_Some in Hk' as [_ Hk']. eauto.
Qed.

(** ** The real name *)

Lemma string_length_append (a b : string) :
  String.length (a +:+ b) = (String.length a + String.length b)%nat.
Proof. induction a as [|c a IH]; simpl; [done|]. by rewrite IH. Qed.

(** X9.  The real name of a profile is its non-empty name parts with one space
    between neighbours: its length is the length of the parts plus one for
    each gap, it is empty only when all three parts are, and a missing
    preposition leaves a single space between first and last name. *)
Theorem realName_parts (user : Profile) :
  String.length (realName user)
  = (String.length (first_name user) + String.length (preposition user)
     + String.length (last_name user)
     + pred (List.length
               (List.filter (fun i => negb (String.eqb i ""))
                            [first_name user; preposition user; last_name user])))%nat
  /\ (realName user = "" <->
      first_name user = "" /\ preposition user = "" /\ last_name user = "")
  /\ (preposition user = "" ->
      first_name user <> "" -> last_name user <> "" ->
      realName user = first_name user +:+ " " +:+ last_name user).
Proof.
  unfold realName.
  destruct (first_name user) as [|c1 f], (preposition user) as [|c2 p],
    (last_name user) as [|c3 l];
    cbv -[String.length Nat.add String.append Nat.pred];
    cbn [String.length Nat.pred]; rewrite ?string_length_append;
    cbn [String.length].
  all: split_and!; try done; try lia.
  all: try (split; [done|intros (? & ? & ?); done]).
  all: intros (? & ? & ?); done.
Qed.

(** ** The statements at sample values *)

Lemma logout_keeps_salt_witness :
  salt (logout "vialer" sample_app).2 = Some "c2FsdA"
  /\ salt (login sample_NOTOK_STATUS sample_derive_key None "vialer"
                 "ann@example.org" "secret" (sample_ok (Some "/clients/42/"))
                 (logout "vialer" sample_app).2).2 = Some "c2FsdA".
Proof.
  destruct (logout_keeps_salt sample_NOTOK_STATUS sample_derive_key None
              "vialer" sample_app) as (H1 & _ & H3).
  split; [exact H1|]. apply H3. reflexivity.
Defined.

(** C2, as the claim states it, fails on the lock screen: the session is not
    authenticated, and still [logout] issues the update that clears the
    authentication flag with [persist: true], and the flush is written, in
    plain text. *)
Lemma logout_persists_flag_clear_unauthenticated :
  authenticated locked_app = false
  /\ (logout "vialer" locked_app).1 = Returned tt
  /\ existsb persists_flag_clear (history (logout "vialer" locked_app).2) = true
  /\ map fst (durable (logout "vialer" locked_app).2) = [Plain].
Proof. vm_compute. auto. Qed.

Lemma failed_login_leaves_vault_witness :
  notok sample_NOTOK_STATUS (status (sample_failure None)) = true
  /\ authenticated sample_app = false
  /\ lookup_path ["user"; "password"]
       (state (login sample_NOTOK_STATUS sample_derive_key None "vialer"
                     "ann@example.org" "wrong" (sample_failure None) sample_app).2)
     = JStr ""
  /\ durable (login sample_NOTOK_STATUS sample_derive_key None "vialer"
                    "ann@example.org" "wrong" (sample_failure None) sample_app).2
     = [].
Proof.
  pose proof (failed_login_leaves_vault sample_NOTOK_STATUS sample_derive_key None
                "vialer" "ann@example.org" "wrong" (sample_failure None) sample_app
                eq_refl eq_refl) as (_ & _ & Hp & _ & _ & _ & _ & _ & Hd).
  split_and!; [reflexivity|reflexivity|exact Hp|exact Hd].
Defined.

Lemma login_persistence_regimes_witness :
  notok sample_NOTOK_STATUS (status (sample_ok (Some "/clients/42/"))) = false
  /\ (login sample_NOTOK_STATUS sample_derive_key None "vialer"
            "ann@example.org" "secret" (sample_ok (Some "/clients/42/"))
            sample_app).1 = Returned tt
  /\ exists issued,
       history (login sample_NOTOK_STATUS sample_derive_key None "vialer"
                      "ann@example.org" "secret" (sample_ok (Some "/clients/42/"))
                      sample_app).2 = history sample_app ++ issued
       /\ map snd (setState_calls issued)
          = [ {| encrypt := Some false; persist := Some true |};
              {| encrypt := Some false; persist := Some true |};
              {| encrypt := None; persist := Some true |} ].
Proof.
  split; [reflexivity|]. split; [reflexivity|].
  destruct (login_persistence_regimes sample_NOTOK_STATUS sample_derive_key None
              "vialer" "ann@example.org" "secret" (sample_ok (Some "/clients/42/"))
              "/clients/42/" sample_app eq_refl eq_refl eq_refl eq_refl)
    as (issued & layer & tree1 & tree2 & mode & Hh & Hs & _).
  exists issued. split; [exact Hh|]. by rewrite Hs.
Defined.

(** C8, as the claim states it, fails on a client string with a dot: the
    login returns and stores a [client_id] whose second character is the
    dot, which is no digit. *)
Lemma login_client_id_keeps_dot :
  (login sample_NOTOK_STATUS sample_derive_key None "vialer"
         "ann@example.org" "secret" (sample_ok (Some "/api/v1.5/clients/42/"))
         sample_app).1 = Returned tt
  /\ lookup_path ["user"; "client_id"]
       (state (login sample_NOTOK_STATUS sample_derive_key None "vialer"
                     "ann@example.org" "secret"
                     (sample_ok (Some "/api/v1.5/clients/42/")) sample_app).2)
     = JStr "1.542"
  /\ String.get 1 "1.542" = Some "."%char
  /\ is_digit "." = false.
Proof. vm_compute. auto. Qed.

Lemma login_client_id_witness :
  exists stored,
    lookup_path ["user"; "client_id"]
      (state (login sample_NOTOK_STATUS sample_derive_key None "vialer"
                    "ann@example.org" "secret" (sample_ok (Some "/clients/42/"))
                    sample_app).2) = JStr stored
    /\ forall c, In c (list_ascii_of_string stored) ->
                 is_digit c = true \/ c = "."%char.
Proof.
  destruct (login_client_id sample_NOTOK_STATUS sample_derive_key None
              "vialer" "ann@example.org" "secret" (sample_ok (Some "/clients/42/"))
              "/clients/42/" sample_app eq_refl eq_refl eq_refl eq_refl)
    as (stored & Hs & _ & Hc).
  exists stored. split; [exact Hs|exact Hc].
Defined.

Lemma unentitled_login_logs_out_witness :
  200 <= status (sample_ok None) < 300
  /\ falsy_client (client (data (sample_ok None))) = true
  /\ (login sample_NOTOK_STATUS sample_derive_key None "vialer"
            "ann@example.org" "secret" (sample_ok None) sample_app).1
     = Returned tt
  /\ lookup_path ["user"; "authenticated"]
       (state (login sample_NOTOK_STATUS sample_derive_key None "vialer"
                     "ann@example.org" "secret" (sample_ok None) sample_app).2)
     = JBool false
  /\ lookup_path ["ui"; "layer"]
       (state (login sample_NOTOK_STATUS sample_derive_key None "vialer"
                     "ann@example.org" "secret" (sample_ok None) sample_app).2)
     = JStr "login"
  /\ credentials (login sample_NOTOK_STATUS sample_derive_key None "vialer"
                        "ann@example.org" "secret" (sample_ok None) sample_app).2
     = None
  /\ In (Call_calls_disconnect false)
        (history (login sample_NOTOK_STATUS sample_derive_key None "vialer"
                        "ann@example.org" "secret" (sample_ok None) sample_app).2)
  /\ In (Call_emit "fg:notify"
           {| icon := "user"; message := Some (t_ "Goodbye!" []);
              timeout := None; type := "success" |})
        (history (login sample_NOTOK_STATUS sample_derive_key None "vialer"
                        "ann@example.org" "secret" (sample_ok None) sample_app).2).
Proof.
  assert (200 <= status (sample_ok None) < 300) as Hs by (simpl; lia).
  assert (Forall (fun n => ~ (200 <= n < 300)) sample_NOTOK_STATUS) as Hall
    by (unfold sample_NOTOK_STATUS; repeat constructor; lia).
  destruct (unentitled_login_logs_out sample_NOTOK_STATUS sample_derive_key
              None "vialer" "ann@example.org" "secret" (sample_ok None)
              sample_app Hall Hs eq_refl)
    as (_ & Hret & issued & Hh & _ & _ & _ & Heff).
  destruct (Heff Hret) as (Ha & _ & _ & _ & Hl & _ & Hc & Hd & Hg).
  split; [exact Hs|]. split; [reflexivity|]. split; [exact Hret|].
  split; [exact Ha|]. split; [exact Hl|]. split; [exact Hc|].
  rewrite Hh. split; apply in_or_app; right; assumption.
Defined.

(** C6 at a failing input: the answer has status 401 and an error body whose
    message does not name the rate limit; the notification that [login] emits
    has no message at all, where the claim promises the generic text. *)
Theorem login_unclassified_error_has_no_message :
  history (login sample_NOTOK_STATUS sample_derive_key None "vialer"
                 "ann@example.org" "wrong"
                 (sample_failure (Some {| error_message := "Invalid credentials" |}))
                 sample_app).2
  = [ Call_api_setupClient (Some ("ann@example.org", "wrong"));
      Call_api_client_get "api/permission/systemuser/profile/";
      Call_emit "fg:notify"
        {| icon := "warning"; message := None; timeout := None; type := "warning" |};
      Call_setState (JObj [("user", JObj [("password", JStr "")])]) no_options ].
Proof. reflexivity. Qed.

Lemma rate_limited_login_date_witness :
  exists date,
    In (Call_emit "fg:notify"
          {| icon := "warning";
             message :=
               Some (t_ "Too many failed login attempts; try again at {date}"
                        [("date", date)]);
             timeout := None; type := "warning" |})
       (history (login sample_NOTOK_STATUS sample_derive_key None "vialer"
                   "ann@example.org" "wrong"
                   (sample_failure
                      (Some {| error_message :=
                        "Too many failed login attempts; try again at 13:45:00Z" |}))
                   sample_app).2)
    /\ String.length date = 8%nat.
Proof.
  destruct (rate_limited_login_date sample_NOTOK_STATUS sample_derive_key None
              "vialer" "ann@example.org" "wrong"
              (sample_failure
                 (Some {| error_message :=
                   "Too many failed login attempts; try again at 13:45:00Z" |}))
              _ sample_app eq_refl eq_refl eq_refl)
    as (date & Hh & Hl & _).
  exists date. split; [|exact Hl].
  rewrite Hh. simpl. tauto.
Defined.

Lemma failed_login_without_error_body_witness :
  notok sample_NOTOK_STATUS (status (sample_failure None)) = true
  /\ (login sample_NOTOK_STATUS sample_derive_key None "vialer"
            "ann@example.org" "wrong" (sample_failure None) sample_app).1
     = Returned tt.
Proof.
  split; [reflexivity|].
  exact (proj1 (failed_login_without_error_body sample_NOTOK_STATUS
                  sample_derive_key None "vialer" "ann@example.org" "wrong"
                  (sample_failure None) sample_app eq_refl eq_refl)).
Defined.

Lemma failed_login_keeps_client_credentials_witness :
  notok sample_NOTOK_STATUS (status (sample_failure None)) = true
  /\ credentials (login sample_NOTOK_STATUS sample_derive_key None "vialer"
                        "ann@example.org" "wrong" (sample_failure None)
                        sample_app).2
     = Some ("ann@example.org", "wrong").
Proof.
  split; [reflexivity|].
  exact (proj1 (failed_login_keeps_client_credentials sample_NOTOK_STATUS
                  sample_derive_key None "vialer" "ann@example.org" "wrong"
                  (sample_failure None) sample_app eq_refl)).
Defined.

Lemma logout_resets_session_witness :
  (logout "vialer" sample_app).1 = Returned tt
  /\ lookup_path ["user"; "authenticated"] (state (logout "vialer" sample_app).2)
     = JBool false
  /\ credentials (logout "vialer" sample_app).2 = None.
Proof.
  split; [reflexivity|].
  destruct (logout_resets_session "vialer" sample_app eq_refl)
    as (Ha & _ & _ & _ & _ & _ & _ & Hc & _).
  split; [exact Ha|exact Hc].
Defined.

Lemma entitled_login_session_witness :
  (login sample_NOTOK_STATUS sample_derive_key None "vialer"
         "ann@example.org" "secret" (sample_ok (Some "/clients/42/"))
         sample_app).1 = Returned tt
  /\ lookup_path ["user"; "authenticated"]
       (state (login sample_NOTOK_STATUS sample_derive_key None "vialer"
                     "ann@example.org" "secret" (sample_ok (Some "/clients/42/"))
                     sample_app).2) = JBool true
  /\ lookup_path ["ui"; "layer"]
       (state (login sample_NOTOK_STATUS sample_derive_key None "vialer"
                     "ann@example.org" "secret" (sample_ok (Some "/clients/42/"))
                     sample_app).2) = JStr "settings".
Proof.
  split; [reflexivity|].
  destruct (entitled_login_session sample_NOTOK_STATUS sample_derive_key None
              "vialer" "ann@example.org" "secret" (sample_ok (Some "/clients/42/"))
              "/clients/42/" sample_app eq_refl eq_refl eq_refl eq_refl)
    as (Ha & _ & _ & _ & _ & _ & _ & _ & _ & _ & Hl & _).
  split; [exact Ha|exact Hl].
Defined.

Lemma login_stopped_by_vault_witness :
  (login sample_NOTOK_STATUS sample_derive_key None "vialer"
         "ann@example.org" "changed" (sample_ok (Some "/clients/42/"))
         locked_app).1 = Thrown LockError_InvalidPassword
  /\ state (login sample_NOTOK_STATUS sample_derive_key None "vialer"
                  "ann@example.org" "changed" (sample_ok (Some "/clients/42/"))
                  locked_app).2 = state locked_app.
Proof.
  split; [reflexivity|].
  exact (proj1 (login_stopped_by_vault sample_NOTOK_STATUS sample_derive_key None
                  "vialer" "ann@example.org" "changed"
                  (sample_ok (Some "/clients/42/")) locked_app
                  (or_introl eq_refl))).
Defined.
